(** * Subhosting IDE starter: URL joiner, API client, server routes and
      browser polling controller, embedded from the TypeScript/JavaScript
      sources and checked against the written specification.

    Strings are sequences of bytes (the UTF-8 form of the JavaScript
    string).  Every operation below inspects ASCII characters only, so
    the results agree with the UTF-16 code-unit semantics of the source. *)

From Stdlib Require Import String Ascii List Bool Arith Lia.
Import ListNotations.
Open Scope list_scope.
Open Scope string_scope.

(* ================================================================== *)
(** * The fragment of JavaScript the sources rely on                   *)
(* ================================================================== *)

Module Js.

(** Values the URL joiner can be handed.  Numbers, symbols and objects
    other than arrays are left out: the joiner looks only at [typeof],
    at [length]/indexing of its array and, on two paths, at the string
    conversion of a value. *)
#[warnings="-register-all"]
Inductive value : Type :=
| VUndefined
| VNull
| VBool (b : bool)
| VStr (s : string)
| VArr (elems : list value).

Inductive exn : Type :=
| TypeError (message : string)
| SyntaxError (message : string)
| Error (message : string).

(** Outcome of evaluating a call: a returned value or a thrown one. *)
Inductive completion (A : Type) : Type :=
| Returned (a : A)
| Threw (e : exn).
Arguments Returned {A} a.
Arguments Threw {A} e.

Inductive type_tag : Type :=
| TUndefined | TObject | TBoolean | TString.

(** [typeof v]; note that [typeof null] is ["object"]. *)
Definition typeof (v : value) : type_tag :=
  match v with
  | VUndefined => TUndefined
  | VNull => TObject
  | VBool _ => TBoolean
  | VStr _ => TString
  | VArr _ => TObject
  end.

Definition is_string (v : value) : bool :=
  match v with VStr _ => true | _ => false end.

(** [Array.prototype.join] on strings. *)
Fixpoint join (sep : string) (l : list string) : string :=
  match l with
  | [] => ""
  | [x] => x
  | x :: rest => x ++ sep ++ join sep rest
  end.

(** [ToString]: what [+] with a string operand and template literals
    apply.  An array prints its elements separated by commas, with
    [null] and [undefined] elements printed as nothing. *)
Fixpoint to_string (v : value) : string :=
  match v with
  | VUndefined => "undefined"
  | VNull => "null"
  | VBool true => "true"
  | VBool false => "false"
  | VStr s => s
  | VArr elems =>
      join ","
        (map (fun e => match e with
                       | VUndefined | VNull => ""
                       | _ => to_string e
                       end) elems)
  end.

(** [String.prototype.startsWith]. *)
Fixpoint starts_with (p s : string) : bool :=
  match p, s with
  | "", _ => true
  | String a p', String b s' => Ascii.eqb a b && starts_with p' s'
  | String _ _, "" => false
  end.

(** [String.prototype.split] with a one-character separator: the pieces
    between the occurrences, always at least one piece. *)
Fixpoint split (sep : ascii) (s : string) : list string :=
  match s with
  | "" => [""]
  | String c s' =>
      if Ascii.eqb c sep then "" :: split sep s'
      else match split sep s' with
           | piece :: pieces => String c piece :: pieces
           | [] => [String c ""]
           end
  end.

(** ** Effects: a state and exception monad.

    A computation runs in a world of type [W], may change it, and either
    returns or throws; what it did to the world before throwing stays
    done.  An [await] on a rejected promise is a throw. *)
Definition M (W A : Type) : Type := W -> W * completion A.

Definition ret {W A} (a : A) : M W A := fun w => (w, Returned a).

Definition throw {W A} (e : exn) : M W A := fun w => (w, Threw e).

Definition bind {W A B} (c : M W A) (k : A -> M W B) : M W B :=
  fun w => match c w with
           | (w', Returned a) => k a w'
           | (w', Threw e) => (w', Threw e)
           end.

(** [try { body } catch (e) { handler }]. *)
Definition try_catch {W A} (body : M W A) (handler : exn -> M W A) : M W A :=
  fun w => match body w with
           | (w', Returned a) => (w', Returned a)
           | (w', Threw e) => handler e w'
           end.

Definition lift {W A} (r : completion A) : M W A := fun w => (w, r).

(** ** [new URLSearchParams(query).toString()]

    The serializer of the URL standard for
    [application/x-www-form-urlencoded]: ASCII letters and digits and
    the characters [*], [-], [.] and [_] stand for themselves, a space
    becomes [+], every other byte is written [%XX] in upper-case
    hexadecimal; pairs are [name=value] joined by [&]. *)
Definition hex_digit (n : nat) : ascii :=
  nth n (list_ascii_of_string "0123456789ABCDEF") "0"%char.

Definition urlencoded_keep (c : ascii) : bool :=
  let n := nat_of_ascii c in
  ((48 <=? n) && (n <=? 57) || (65 <=? n) && (n <=? 90)
   || (97 <=? n) && (n <=? 122))%nat
  || Ascii.eqb c "*" || Ascii.eqb c "-" || Ascii.eqb c "." || Ascii.eqb c "_".

Fixpoint urlencode (s : string) : string :=
  match s with
  | "" => ""
  | String c s' =>
      if urlencoded_keep c then String c (urlencode s')
      else if Ascii.eqb c " " then String "+" (urlencode s')
      else String "%" (String (hex_digit (nat_of_ascii c / 16))
                        (String (hex_digit (nat_of_ascii c mod 16))
                           (urlencode s')))
  end.

(** A query object: its own string properties in insertion order;
    [None] is a call without the argument. *)
Definition query := option (list (string * string)).

Definition URLSearchParams_toString (q : query) : string :=
  match q with
  | None => ""
  | Some pairs =>
      join "&" (map (fun kv => urlencode (fst kv) ++ "=" ++ urlencode (snd kv)) pairs)
  end.

End Js.

(* ================================================================== *)
(** * subhosting.ts, part 1: the URL joiner                            *)
(* ================================================================== *)

Module UrlJoin.
Import Js.

Definition is_slash (c : ascii) : bool := Ascii.eqb c "/".
Definition is_colon (c : ascii) : bool := Ascii.eqb c ":".

(** [s.replace(/^[\/]+/, "")]. *)
Fixpoint strip_leading_slashes (s : string) : string :=
  match s with
  | String c s' => if is_slash c then strip_leading_slashes s' else s
  | "" => ""
  end.

Fixpoint all_slashes (s : string) : bool :=
  match s with
  | String c s' => is_slash c && all_slashes s'
  | "" => true
  end.

(** [s.replace(/[\/]+$/, r)]: the search goes left to right, and the
    first position from which a non-empty run of slashes reaches the
    end of the string is replaced by [r]. *)
Fixpoint replace_trailing_slashes (r s : string) : string :=
  match s with
  | String c s' =>
      if is_slash c && all_slashes s' then r
      else String c (replace_trailing_slashes r s')
  | "" => ""
  end.

(** Longest prefix made of characters other than [/] and [:], with the
    remainder: the greedy [[^/:]+] of the scheme patterns. *)
Fixpoint scheme_span (s : string) : string * string :=
  match s with
  | String c s' =>
      if is_slash c || is_colon c then ("", s)
      else let (p, r) := scheme_span s' in (String c p, r)
  | "" => ("", "")
  end.

(** A match of [/^([^/:]+):\/*/]: the captured scheme name and the text
    that follows the colon and its run of slashes. *)
Definition match_scheme (s : string) : option (string * string) :=
  match scheme_span s with
  | (String c p, String d r) =>
      if is_colon d then Some (String c p, strip_leading_slashes r) else None
  | _ => None
  end.

(** [s.match(/^[^/:]+:\/*$/)] is not null. *)
Definition is_bare_scheme (s : string) : bool :=
  match match_scheme s with
  | Some (_, "") => true
  | _ => false
  end.

(** [s.replace(/^([^/:]+):\/*/, "$1" + sep)]. *)
Definition replace_scheme (sep s : string) : string :=
  match match_scheme s with
  | Some (scheme, rest) => scheme ++ sep ++ rest
  | None => s
  end.

(** Lines 31-35: three slashes for a [file:///] URL, two otherwise. *)
Definition normalize_scheme (s : string) : string :=
  if starts_with "file:///" s then replace_scheme ":///" s
  else replace_scheme "://" s.

(** [str.replace(/\/(\?|&|#[^!])/g, "$1")]: every slash that stands
    directly before [?], [&] or [#x] with [x] other than [!] is dropped;
    the search resumes after the text the match consumed. *)
Fixpoint strip_slash_before_delim (s : string) : string :=
  match s with
  | "" => ""
  | String c s1 =>
      if is_slash c then
        match s1 with
        | "" => String c ""
        | String d s2 =>
            if Ascii.eqb d "?" || Ascii.eqb d "&" then
              String d (strip_slash_before_delim s2)
            else if Ascii.eqb d "#" then
              match s2 with
              | "" => String c (strip_slash_before_delim s1)
              | String e s3 =>
                  if Ascii.eqb e "!" then String c (strip_slash_before_delim s1)
                  else String d (String e (strip_slash_before_delim s3))
              end
            else String c (strip_slash_before_delim s1)
        end
      else String c (strip_slash_before_delim s1)
  end.

(** Lines 67-68: [parts = str.split("?")], then
    [parts.shift() + (parts.length > 0 ? "?" : "") + parts.join("&")]. *)
Definition merge_query (str : string) : string :=
  match split "?" str with
  | [] => "undefined"
  | first :: parts =>
      first ++ (if (0 <? length parts)%nat then "?" else "") ++ join "&" parts
  end.

Definition not_a_string (v : value) : exn :=
  TypeError ("Url must be a string. Received " ++ to_string v).

(** The [for] loop of lines 37-58, from index [i] on; [n] is
    [strArray.length] and [resultArray] what has been pushed so far. *)
Fixpoint components (n i : nat) (strArray : list value)
    (resultArray : list string) : completion (list string) :=
  match strArray with
  | [] => Returned resultArray
  | VStr component :: rest =>
      if String.eqb component "" then components n (S i) rest resultArray
      else
        let c1 := if (0 <? i)%nat then strip_leading_slashes component
                  else component in
        let c2 := if (i <? n - 1)%nat then replace_trailing_slashes "" c1
                  else replace_trailing_slashes "/" c1 in
        components n (S i) rest (resultArray ++ [c2])%list
  | v :: _ => Threw (not_a_string v)
  end.

(** [normalize(strArray)].  The function rewrites its argument in place
    ([shift] and the assignments to [strArray[0]]), so the model returns
    the contents of the array after the call next to the completion. *)
Definition normalize (strArray : list value)
    : list value * completion string :=
  match strArray with
  | [] => ([], Returned "")
  | VStr s0 :: rest =>
      let '(first, others) :=
        if is_bare_scheme s0 && (1 <? length strArray)%nat then
          match rest with
          | next :: rest' => (s0 ++ to_string next, rest')
          | [] => (s0, rest)
          end
        else (s0, rest) in
      let strArray' := VStr (normalize_scheme first) :: others in
      (strArray',
       match components (length strArray') 0 strArray' [] with
       | Returned resultArray =>
           Returned (merge_query (strip_slash_before_delim (join "/" resultArray)))
       | Threw e => Threw e
       end)
  | v :: _ => (strArray, Threw (not_a_string v))
  end.

(** [urlJoin(...args)].  An array passed as first argument is used as
    the segment list itself and is therefore rewritten by [normalize];
    otherwise a copy of the arguments is.  The model returns the
    arguments as the caller sees them after the call. *)
Definition urlJoin (args : list value) : list value * completion string :=
  match args with
  | first :: others =>
      match typeof first with
      | TObject =>
          match first with
          | VArr input =>
              let (input', r) := normalize input in (VArr input' :: others, r)
          | _ =>
              (* [normalize(null)] fails at [strArray.length] *)
              (args, Threw (TypeError
                              "Cannot read properties of null (reading 'length')"))
          end
      | _ => (args, snd (normalize args))
      end
  | [] => (args, snd (normalize args))
  end.

(** The value [urlJoin] evaluates to. *)
Definition urlJoin_result (args : list value) : completion string :=
  snd (urlJoin args).

(** ** Shapes of strings the properties below speak of *)

Fixpoint count_char (c : ascii) (s : string) : nat :=
  match s with
  | "" => 0
  | String d s' => (if Ascii.eqb d c then 1 else 0) + count_char c s'
  end.

(** The text right after a slash makes the slash one that
    [strip_slash_before_delim] drops. *)
Definition delim_follows (s : string) : bool :=
  match s with
  | "" => false
  | String d s2 =>
      Ascii.eqb d "?" || Ascii.eqb d "&"
      || (Ascii.eqb d "#"
          && match s2 with
             | "" => false
             | String e _ => negb (Ascii.eqb e "!")
             end)
  end.

(** Some slash of [s] stands directly before [?], [&] or [#x]. *)
Fixpoint slash_before_delim (s : string) : bool :=
  match s with
  | "" => false
  | String c s1 => (is_slash c && delim_follows s1) || slash_before_delim s1
  end.

(** [s] ends with two slashes or more. *)
Fixpoint ends_with_two_slashes (s : string) : bool :=
  match s with
  | "" => false
  | String c s1 => (is_slash c && String.eqb s1 "/") || ends_with_two_slashes s1
  end.

Fixpoint leading_slashes (s : string) : nat :=
  match s with
  | String c s' => if is_slash c then S (leading_slashes s') else 0
  | "" => 0
  end.

(** The number of slashes after the colon of the scheme, when [s]
    starts with a scheme. *)
Definition scheme_slashes (s : string) : option nat :=
  match scheme_span s with
  | (String _ _, String d r) =>
      if is_colon d then Some (leading_slashes r) else None
  | _ => None
  end.

(** The scheme separator of [s] is written the way [normalize_scheme]
    writes it: [:///] when [s] starts with [file:///], [://] otherwise. *)
Definition scheme_normalized (s : string) : bool :=
  match scheme_slashes s with
  | None => true
  | Some k => if starts_with "file:///" s then (k =? 3)%nat else (k =? 2)%nat
  end.

(** No character of [t] is a slash, a colon or a question mark. *)
Fixpoint plain (t : string) : bool :=
  match t with
  | "" => true
  | String c t' =>
      negb (is_slash c) && negb (is_colon c) && negb (Ascii.eqb c "?") && plain t'
  end.

(** [s] is [t] preceded by something. *)
Definition ends_with (t s : string) : Prop := exists a, s = a ++ t.

(** What [merge_query] amounts to, character by character: the first
    [?] stays, each later one becomes [&]. *)
Fixpoint ampersands (s : string) : string :=
  match s with
  | "" => ""
  | String c s' => String (if Ascii.eqb c "?" then "&"%char else c) (ampersands s')
  end.

Fixpoint keep_first_query (s : string) : string :=
  match s with
  | "" => ""
  | String c s' =>
      if Ascii.eqb c "?" then String c (ampersands s')
      else String c (keep_first_query s')
  end.

(** [u] is [s] with some of its slashes left out. *)
Inductive drops_slashes : string -> string -> Prop :=
| drops_nil : drops_slashes "" ""
| drops_keep c s u : drops_slashes s u -> drops_slashes (String c s) (String c u)
| drops_drop s u : drops_slashes s u -> drops_slashes (String "/" s) u.

End UrlJoin.

(* ================================================================== *)
(** * subhosting.ts, part 2: the API client                            *)
(* ================================================================== *)

Module Subhosting.
Import Js UrlJoin.

(** [ClientOptions]: an object that has the property [endpoint], whose
    value is a string or [undefined].  An options object without the
    property is copied from like no options at all; where options are
    optional, [None] stands for both. *)
Record ClientOptions : Type := { endpoint : option string }.

Record Client : Type := {
  accessToken : string;
  orgId : string;
  clientOptions : ClientOptions
}.

(** The headers of a [RequestInit]: a plain object (an association
    list with distinct keys in insertion order), or a [Headers]
    instance holding entries.  An instance keeps its entries away from
    its own string-keyed properties, of which it has none.  Headers
    given as an array of pairs are outside the model. *)
Inductive HeadersInit : Type :=
| HeadersObject (o : list (string * string))
| HeadersInstance (entries : list (string * string)).

(** [RequestInit], as far as the client uses it. *)
Record RequestInit : Type := {
  method : option string;
  headers : option HeadersInit;
  body : option string
}.

(** An outbound call of the global [fetch]. *)
Record request : Type := { req_url : string; req_init : RequestInit }.

(** A [Response]; [json] is what [await response.json()] gives, the
    parsed document being kept as opaque text. *)
Record response : Type := { status : nat; json : completion string }.

(** The world of the server process: the environment variables, the
    remote side answering outbound requests, and the requests issued so
    far, oldest first. *)
Record world : Type := {
  env : string -> option string;
  network : request -> completion response;
  sent : list request
}.

Notation "x <- c ;; k" := (bind c (fun x => k))
  (at level 61, c at next level, right associativity).

(** [a ?? b]: [b] is consulted only when [a] is null or undefined. *)
Definition nullish_or (a b : option string) : option string :=
  match a with
  | Some s => Some s
  | None => b
  end.

Definition token_required : exn :=
  Error "A Deno Deploy access token is required (or set DEPLOY_ACCESS_TOKEN env variable).".

Definition org_required : exn :=
  Error "Deno Subhosting org ID is required (or set DEPLOY_ORG_ID env variable).".

(** [Object.assign({ endpoint: "https://api.deno.com/v1" }, options)]:
    an [endpoint] property of the options replaces the default, also
    when its value is [undefined]. *)
Definition default_endpoint : string := "https://api.deno.com/v1".

Definition assign_options (options : option ClientOptions) : ClientOptions :=
  match options with
  | Some o => {| endpoint := endpoint o |}
  | None => {| endpoint := Some default_endpoint |}
  end.

(** [new Client(accessToken, orgId, options)]; [Deno_env] is
    [Deno.env.get].  [!at] holds for [undefined] and for the empty
    string. *)
Definition constructor (Deno_env : string -> option string)
    (accessToken orgId : option string) (options : option ClientOptions)
    : completion Client :=
  match nullish_or accessToken (Deno_env "DEPLOY_ACCESS_TOKEN") with
  | None => Threw token_required
  | Some at_ =>
      if String.eqb at_ "" then Threw token_required
      else
        match nullish_or orgId (Deno_env "DEPLOY_ORG_ID") with
        | None => Threw org_required
        | Some org =>
            if String.eqb org "" then Threw org_required
            else Returned {| accessToken := at_;
                             orgId := org;
                             clientOptions := assign_options options |}
        end
  end.

(** [get orgUrl()]. *)
Definition orgUrl (self : Client) : string :=
  "/organizations/" ++ orgId self.

(** [Object.assign(target, source)] on plain objects: a key already in
    the target keeps its place and takes the new value, a new key goes
    to the end.  Only own string-keyed properties of the source are
    copied: from a [Headers] instance, nothing. *)
Fixpoint set_property (k v : string) (o : list (string * string))
    : list (string * string) :=
  match o with
  | [] => [(k, v)]
  | (k', v') :: o' =>
      if String.eqb k' k then (k', v) :: o' else (k', v') :: set_property k v o'
  end.

Definition Object_assign (target source : list (string * string))
    : list (string * string) :=
  fold_left (fun o kv => set_property (fst kv) (snd kv) o) source target.

(** The global [fetch]: the request goes out and the remote side's
    answer (or a rejection) comes back. *)
Definition global_fetch (url : string) (init : RequestInit) : M world response :=
  fun w =>
    let r := {| req_url := url; req_init := init |} in
    ({| env := env w; network := network w; sent := (sent w ++ [r])%list |},
     network w r).

Definition optional_value (o : option string) : value :=
  match o with
  | Some s => VStr s
  | None => VUndefined
  end.

(** [Client.fetch(url, options)]. *)
Definition fetch (self : Client) (url : string) (options : option RequestInit)
    : M world response :=
  finalUrl <- lift (urlJoin_result
                      [optional_value (endpoint (clientOptions self)); VStr url]) ;;
  let finalHeaders :=
    Object_assign
      [("Authorization", "Bearer " ++ accessToken self);
       ("Content-Type", "application/json")]
      (match options with
       | Some {| headers := Some (HeadersObject h) |} => h
       | _ => []
       end) in
  let finalOptions :=
    {| method := match options with Some o => method o | None => None end;
       headers := Some (HeadersObject finalHeaders);
       body := match options with Some o => body o | None => None end |} in
  global_fetch finalUrl finalOptions.

(** [Client.fetchUrl(url, options)]. *)
Definition fetchUrl (self : Client) (url : string) (options : option RequestInit)
    : M world response :=
  fetch self url options.

Definition get_init : RequestInit :=
  {| method := Some "GET"; headers := None; body := None |}.

(** [Client.listProjects(query)]. *)
Definition listProjects (self : Client) (q : query) : M world response :=
  let qs := URLSearchParams_toString q in
  fetch self (orgUrl self ++ "/projects?" ++ qs) (Some get_init).

(** [Client.listDeployments(projectId, query)]. *)
Definition listDeployments (self : Client) (projectId : string) (q : query)
    : M world response :=
  let qs := URLSearchParams_toString q in
  fetch self ("/projects/" ++ projectId ++ "/deployments?" ++ qs) (Some get_init).

(** [Client.listAppLogs(deploymentId, query)]. *)
Definition listAppLogs (self : Client) (deploymentId : string) (q : query)
    : M world response :=
  let qs := URLSearchParams_toString q in
  fetch self ("/deployments/" ++ deploymentId ++ "/app_logs?" ++ qs) (Some get_init).

(** [createProject] and [createDeployment] are the same call of [fetch]
    with a POST and a [JSON.stringify] body; no property below speaks
    of them. *)

(** The client the server builds with [new Client()] when the
    environment holds the token ["token"] and the organisation ["org"]. *)
Definition sample_env (name : string) : option string :=
  if String.eqb name "DEPLOY_ACCESS_TOKEN" then Some "token"
  else if String.eqb name "DEPLOY_ORG_ID" then Some "org"
  else None.

Definition sample_client : Client :=
  {| accessToken := "token"; orgId := "org";
     clientOptions := {| endpoint := Some default_endpoint |} |}.

(** A fully qualified URL of the kind a paginated answer links to. *)
Definition next_page : string := "https://api.deno.com/v1/projects?page=2".

(** The specification's reading of credential resolution: the explicit
    constructor argument first, else the environment variable; the
    credential resolves when that gives a non-empty string. *)
Definition resolved (explicit fallback : option string) : option string :=
  match explicit with
  | Some s => Some s
  | None => fallback
  end.

Definition resolves_to (explicit fallback : option string) (s : string) : Prop :=
  resolved explicit fallback = Some s /\ s <> "".

Definition unresolvable (explicit fallback : option string) : Prop :=
  forall s, ~ resolves_to explicit fallback s.

End Subhosting.

(* ================================================================== *)
(** * main.tsx: the deployments route of the server                    *)
(* ================================================================== *)

Module Server.
Import Js Subhosting.

(** The browser's request as the handler reads it: the query
    parameters of the URL, in order. *)
Record context : Type := { req_query : list (string * string) }.

(** [c.req.query(name)]: the first parameter of that name, if any. *)
Fixpoint lookup (name : string) (params : list (string * string)) : option string :=
  match params with
  | [] => None
  | (k, v) :: rest => if String.eqb k name then Some v else lookup name rest
  end.

(** [x || ""]. *)
Definition or_empty (x : option string) : string :=
  match x with
  | Some s => if String.eqb s "" then "" else s
  | None => ""
  end.

(** [await dr.json()]. *)
Definition response_json (dr : response) : M world string := lift (json dr).

(** The handler of [app.get("/deployments", ...)]; what [c.json(...)]
    sends back is the parsed document. *)
Definition get_deployments (shc : Client) (c : context) : M world string :=
  let projectId := or_empty (lookup "projectId" (req_query c)) in
  dr <- listDeployments shc projectId (Some [("order", "desc")]) ;;
  deployments <- response_json dr ;;
  ret deployments.

(** The path the route asks the client for, the headers the client
    sends when the caller gives none, and a browser request that tries
    to ask for ascending order. *)
Definition deployments_path (c : context) : string :=
  "/projects/" ++ or_empty (lookup "projectId" (req_query c))
  ++ "/deployments?order=desc".

Definition default_headers (shc : Client) : list (string * string) :=
  [("Authorization", "Bearer " ++ accessToken shc);
   ("Content-Type", "application/json")].

Definition ascending_request : context :=
  {| req_query := [("order", "asc"); ("projectId", "p1")] |}.

Definition quiet_world : world :=
  {| env := sample_env;
     network := fun _ => Returned {| status := 200; json := Returned "[]" |};
     sent := [] |}.

End Server.

(* ================================================================== *)
(** * static/app.js: the polling controller of the page                *)
(* ================================================================== *)

Module App.
Import Js.

(** A deployment as the remote API describes it. *)
Record Deployment : Type := {
  domains : list string;
  status : string;
  updatedAt : string
}.

(** A parsed document as [setDeployments] tells documents apart:
    [null] ([None]) or an array of deployment records, or something
    truthy that is not an array and has no [length] below one: the
    object of an error answer, [true], a non-zero number, a non-empty
    string.  Other falsy documents and arrays of other things are left
    out. *)
Inductive document : Type :=
| Deployments (v : option (list Deployment))
| NotAList.

(** What [await dr.json()] gives the page. *)
Record response : Type := { json : completion document }.

(** The page: the rendered content of the [#deployments] panel, the
    value of the [#project-list] selector (both elements are in the
    document [App.tsx] renders), what [console.error] has been given
    (oldest first), the server behind [fetch] and the URLs requested so
    far.  A handler runs from start to end; what other handlers do to
    the page while it awaits is not part of its run. *)
Record page : Type := {
  deployments_innerHTML : string;
  project_list_value : string;
  console : list exn;
  network : string -> completion response;
  requested : list string
}.

Notation "x <- c ;; k" := (bind c (fun x => k))
  (at level 61, c at next level, right associativity).

Definition dq : string := String (ascii_of_nat 34) "".
Definition nl : string := String (ascii_of_nat 10) "".

Definition placeholder : string := "<p>No deployments for this project.</p>".

(** [deployment.domains[0]]. *)
Definition first_domain (d : Deployment) : value :=
  match domains d with
  | dom :: _ => VStr dom
  | [] => VUndefined
  end.

(** [deployment.domains[0] || "URL pending..."]. *)
Definition domain_or_pending (d : Deployment) : string :=
  match domains d with
  | dom :: _ => if String.eqb dom "" then "URL pending..." else dom
  | [] => "URL pending..."
  end.

(** The template literal of lines 11-19. *)
Definition deployment_line (d : Deployment) : string :=
  "<div class=" ++ dq ++ "deployment-line" ++ dq ++ ">" ++ nl ++
  "        <a href=" ++ dq ++ "https://" ++ to_string (first_domain d) ++ dq ++
  " target=" ++ dq ++ "_blank" ++ dq ++ ">" ++ nl ++
  "          " ++ domain_or_pending d ++ nl ++
  "        </a>" ++ nl ++
  "        <span class=" ++ dq ++ "timestamp" ++ dq ++ ">" ++ nl ++
  "          <span class=" ++ dq ++ "status " ++ status d ++ dq ++ ">" ++
  status d ++ "</span>" ++ nl ++
  "          " ++ updatedAt d ++ nl ++
  "        </span>" ++ nl ++
  "      </div>".

Definition set_innerHTML (html : string) : M page unit :=
  fun p => ({| deployments_innerHTML := html;
               project_list_value := project_list_value p;
               console := console p;
               network := network p;
               requested := requested p |}, Returned tt).

(** [setDeployments(deployments)]; [None] is a null or undefined
    argument.  What is not a list passes the guard of line 6 and has
    no [forEach] to call at line 10. *)
Definition setDeployments (deployments : document) : M page unit :=
  match deployments with
  | Deployments None => set_innerHTML placeholder
  | Deployments (Some ds) =>
      if (length ds <? 1)%nat then set_innerHTML placeholder
      else
        let html := fold_left (fun html d => html ++ deployment_line d) ds "" in
        set_innerHTML html
  | NotAList => throw (TypeError "deployments.forEach is not a function")
  end.

(** [getProjectId()]. *)
Definition getProjectId : M page string :=
  fun p => (p, Returned (project_list_value p)).

(** The browser's [fetch(url)]. *)
Definition fetch (url : string) : M page response :=
  fun p => ({| deployments_innerHTML := deployments_innerHTML p;
               project_list_value := project_list_value p;
               console := console p;
               network := network p;
               requested := (requested p ++ [url])%list |}, network p url).

Definition response_json (dr : response) : M page document :=
  lift (json dr).

(** [console.error(e)]. *)
Definition console_error (e : exn) : M page unit :=
  fun p => ({| deployments_innerHTML := deployments_innerHTML p;
               project_list_value := project_list_value p;
               console := (console p ++ [e])%list;
               network := network p;
               requested := requested p |}, Returned tt).

(** [pollData()]. *)
Definition pollData : M page unit :=
  projectId <- getProjectId ;;
  try_catch
    (dr <- fetch ("/deployments?projectId=" ++ projectId) ;;
     deployments <- response_json dr ;;
     setDeployments deployments)
    (fun e => console_error e).

(** The URL a poll requests, and what it means for the poll to fail
    with [e]: the request is rejected, or the answer does not parse. *)
Definition poll_url (p : page) : string :=
  "/deployments?projectId=" ++ project_list_value p.

Definition poll_fails (p : page) (e : exn) : Prop :=
  network p (poll_url p) = Threw e \/
  exists dr, network p (poll_url p) = Returned dr /\ json dr = Threw e.

Definition offline_page : page :=
  {| deployments_innerHTML := "<p>earlier content</p>";
     project_list_value := "p1";
     console := [];
     network := fun _ => Threw (TypeError "Failed to fetch");
     requested := [] |}.

End App.

(* ================================================================== *)
(** * subhosting.ts, part 3: the POST helpers of the client            *)
(* ================================================================== *)

Module Posts.
Import Js UrlJoin Subhosting.

(** What the sources hand to [JSON.stringify]: a value, or an object
    literal with its properties in order. *)
#[warnings="-register-all"]
Inductive json : Type :=
| JValue (v : value)
| JObject (props : list (string * json)).

Section WithStringify.

(** [JSON.stringify] belongs to the platform; the client only passes
    its result on. *)
Variable JSON_stringify : json -> string.

Definition post_init (b : string) : RequestInit :=
  {| method := Some "POST"; headers := None; body := Some b |}.

(** [Client.createProject(name)]; the body is [JSON.stringify({ name })]. *)
Definition createProject (self : Client) (name : option string)
    : M world response :=
  fetch self (orgUrl self ++ "/projects")
    (Some (post_init (JSON_stringify (JObject [("name", JValue (optional_value name))])))).

(** [Client.createDeployment(projectId, deploymentOptions)]. *)
Definition createDeployment (self : Client) (projectId : string)
    (deploymentOptions : json) : M world response :=
  fetch self ("/projects/" ++ projectId ++ "/deployments")
    (Some (post_init (JSON_stringify deploymentOptions))).

End WithStringify.

End Posts.

(* ================================================================== *)
(** * main.tsx: the routes that create things                          *)
(* ================================================================== *)

Module Routes.
Import Js Subhosting Server Posts.

(** What [await c.req.json()] gives the handler of [POST /deployment]:
    a rejection, or a parsed body.  Of a body other than [null] the
    handler reads [projectId] and [code], whatever they are, and
    [undefined] where the body has no such property; of [null] nothing
    can be read. *)
Record deployment_form : Type := { form_projectId : value; form_code : value }.

Inductive parsed_body : Type :=
| BodyNull
| Body (form : deployment_form).

Record post_context : Type := { req_json : completion parsed_body }.

(** The object literal of lines 30-40. *)
Definition bundle (code : value) : json :=
  JObject
    [("entryPointUrl", JValue (VStr "main.ts"));
     ("assets",
      JObject [("main.ts",
                JObject [("kind", JValue (VStr "file"));
                         ("content", JValue code);
                         ("encoding", JValue (VStr "utf-8"))])]);
     ("envVars", JObject [])].

(** What [await c.req.parseBody()] gives the handler of [POST /project]:
    the [name] field of the form, if the form has one. *)
Record form_context : Type := { form_name : option string }.

(** What a handler answers with. *)
Inductive reply : Type :=
| Redirect (location : string)
| Json (document : string).

(** The server process with what [console.log] has printed, oldest
    first. *)
Definition logged : Type := (world * list string)%type.

Definition on_world {A} (c : M world A) : M logged A :=
  fun s => let (w', r) := c (fst s) in ((w', snd s), r).

Definition console_log (line : string) : M logged unit :=
  fun s => ((fst s, (snd s ++ [line])%list), Returned tt).

Section WithStringify.

Variable JSON_stringify : json -> string.

(** The handler of [app.post("/deployment", ...)]; reading
    [body.projectId] of [null] throws, and the template literal in
    [createDeployment] turns [body.projectId] into a string. *)
Definition post_deployment (shc : Client) (c : post_context) : M world reply :=
  body <- lift (req_json c) ;;
  match body with
  | BodyNull =>
      throw (TypeError "Cannot read properties of null (reading 'projectId')")
  | Body form =>
      dr <- createDeployment JSON_stringify shc (to_string (form_projectId form))
              (bundle (form_code form)) ;;
      deploymentResponse <- response_json dr ;;
      ret (Json deploymentResponse)
  end.

(** The handler of [app.post("/project", ...)]. *)
Definition post_project (shc : Client) (c : form_context) : M logged reply :=
  pr <- on_world (createProject JSON_stringify shc (form_name c)) ;;
  projectResponse <- on_world (response_json pr) ;;
  _ <- console_log projectResponse ;;
  ret (Redirect "/").

End WithStringify.

End Routes.

(* ================================================================== *)
(** * static/app.js: the deploy button                                 *)
(* ================================================================== *)

Module Deploy.
Import Js App Posts.

(** The answer to the page's POST; the parsed document is opaque. *)
Record post_response : Type := { post_json : completion string }.

(** The page together with the editor: the text in the editor, the
    server behind a POST (given the URL and the body), and the POSTs
    made so far with their bodies. *)
Record ide : Type := {
  view : page;
  editor_value : string;
  post_network : string -> string -> completion post_response;
  posted : list (string * string)
}.

Definition creating : string := "<p>Creating deployment...</p>".

(** A computation on the page, run inside the larger state. *)
Definition in_view {A} (c : M page A) : M ide A :=
  fun s => let (v', r) := c (view s) in
           ({| view := v'; editor_value := editor_value s;
               post_network := post_network s; posted := posted s |}, r).

(** [$t.innerHTML]. *)
Definition get_innerHTML : M page string :=
  fun p => (p, Returned (deployments_innerHTML p)).

(** [editor.getValue()]. *)
Definition editor_getValue : M ide string :=
  fun s => (s, Returned (editor_value s)).

(** [fetch(url, { method: "POST", body })]. *)
Definition post (url body : string) : M ide post_response :=
  fun s => ({| view := view s; editor_value := editor_value s;
               post_network := post_network s;
               posted := (posted s ++ [(url, body)])%list |},
            post_network s url body).

Section WithStringify.

Variable JSON_stringify : json -> string.

(** [saveAndDeploy(e)]. *)
Definition saveAndDeploy : M ide unit :=
  currentHtml <- in_view get_innerHTML ;;
  _ <- in_view (set_innerHTML (creating ++ currentHtml)) ;;
  projectId <- in_view getProjectId ;;
  code <- editor_getValue ;;
  dr <- post "/deployment"
          (JSON_stringify (JObject [("projectId", JValue (VStr projectId));
                                    ("code", JValue (VStr code))])) ;;
  deployResult <- lift (post_json dr) ;;
  ret tt.

(** The body of that POST. *)
Definition deploy_body (s : ide) : string :=
  JSON_stringify
    (JObject [("projectId", JValue (VStr (project_list_value (view s))));
              ("code", JValue (VStr (editor_value s)))]).

End WithStringify.

(** What the panel shows for a list of deployments. *)
Definition rendered (deployments : option (list Deployment)) : string :=
  match deployments with
  | None => placeholder
  | Some [] => placeholder
  | Some ds => join "" (map deployment_line ds)
  end.

End Deploy.

(* ================================================================== *)
(** * Shapes of endpoints, identifiers and header objects              *)
(* ================================================================== *)

Module Shapes.
Import Js UrlJoin.

Definition is_delim (c : ascii) : bool :=
  Ascii.eqb c "?" || Ascii.eqb c "&" || Ascii.eqb c "#".

(** No [?], [&] or [#] in [s]. *)
Fixpoint no_delim (s : string) : bool :=
  match s with
  | "" => true
  | String c s' => negb (is_delim c) && no_delim s'
  end.

(** Letters, digits, [*], [-], [.] and [_] only. *)
Fixpoint safe (s : string) : bool :=
  match s with
  | "" => true
  | String c s' => urlencoded_keep c && safe s'
  end.

Fixpoint last_is_slash (s : string) : bool :=
  match s with
  | "" => false
  | String c "" => is_slash c
  | String _ s' => last_is_slash s'
  end.

(** An endpoint like the default one: not empty, more than a bare
    scheme, with a normalized scheme separator, no slash at its end and
    no [?], [&] or [#]. *)
Definition clean_endpoint (e : string) : bool :=
  negb (String.eqb e "") && negb (is_bare_scheme e) && scheme_normalized e
  && negb (last_is_slash e) && no_delim e.

(** The text before the first [c] of [s], all of [s] when it has none. *)
Fixpoint before_char (c : ascii) (s : string) : string :=
  match s with
  | "" => ""
  | String d s' => if Ascii.eqb d c then "" else String d (before_char c s')
  end.

(** The text after the first [c] of [s], if it has one. *)
Fixpoint after_char (c : ascii) (s : string) : option string :=
  match s with
  | "" => None
  | String d s' => if Ascii.eqb d c then Some s' else after_char c s'
  end.

(** The query of a URL as the URL standard cuts it out, and so what
    the remote side is asked: the fragment starts at the first [#] and
    is not sent; the query is what follows the first [?] before it. *)
Definition url_query (u : string) : option string :=
  after_char "?" (before_char "#" u).

(** Neither [?] nor [#] occurs in [s]. *)
Definition unmarked (s : string) : Prop :=
  count_char "?" s = 0 /\ count_char "#" s = 0.

(** [s] without its slashes. *)
Fixpoint unslashed (s : string) : string :=
  match s with
  | "" => ""
  | String c s' => if is_slash c then unslashed s' else String c (unslashed s')
  end.

(** No character of [t] is a slash or a colon. *)
Fixpoint slashless (t : string) : bool :=
  match t with
  | "" => true
  | String c t' => negb (is_slash c) && negb (is_colon c) && slashless t'
  end.

(** [o[k]] on a plain object: the value of the first entry with the key. *)
Fixpoint property (k : string) (o : list (string * string)) : option string :=
  match o with
  | [] => None
  | (k', v) :: o' => if String.eqb k' k then Some v else property k o'
  end.

(** The own string-keyed properties of [options?.headers || {}]. *)
Definition caller_headers (options : option Subhosting.RequestInit)
    : list (string * string) :=
  match options with
  | Some o => match Subhosting.headers o with
              | Some (Subhosting.HeadersObject h) => h
              | Some (Subhosting.HeadersInstance _) => []
              | None => []
              end
  | None => []
  end.

(** The world after one more request has gone out. *)
Definition after_request (w : Subhosting.world) (r : Subhosting.request)
    : Subhosting.world :=
  {| Subhosting.env := Subhosting.env w;
     Subhosting.network := Subhosting.network w;
     Subhosting.sent := (Subhosting.sent w ++ [r])%list |}.

(** A GET the client sends when the caller gives no headers. *)
Definition get_request (self : Subhosting.Client) (url : string)
    : Subhosting.request :=
  {| Subhosting.req_url := url;
     Subhosting.req_init :=
       {| Subhosting.method := Some "GET";
          Subhosting.headers :=
            Some (Subhosting.HeadersObject (Server.default_headers self));
          Subhosting.body := None |} |}.

(** A POST the client sends when the caller gives no headers. *)
Definition post_request (self : Subhosting.Client) (url b : string)
    : Subhosting.request :=
  {| Subhosting.req_url := url;
     Subhosting.req_init :=
       {| Subhosting.method := Some "POST";
          Subhosting.headers :=
            Some (Subhosting.HeadersObject (Server.default_headers self));
          Subhosting.body := Some b |} |}.

(** A world that answers every request with an empty list. *)
Definition answering_world : Subhosting.world :=
  {| Subhosting.env := Subhosting.sample_env;
     Subhosting.network :=
       fun _ => Returned {| Subhosting.status := 200;
                            Subhosting.json := Returned "[]" |};
     Subhosting.sent := [] |}.

End Shapes.

(* ================================================================== *)
(** * Properties of the URL joiner                                     *)
(* ================================================================== *)

Section UrlJoinExamples.
Import Js UrlJoin.

(** The specification's first worked example. *)
Example urlJoin_slashes :
  urlJoin_result [VStr "http://a/"; VStr "/b/"; VStr "/c"] = Returned "http://a/b/c".
Proof. reflexivity. Qed.

(** Empty segments are skipped. *)
Example urlJoin_empty_segment :
  urlJoin_result [VStr "http://a"; VStr ""; VStr "b"] = Returned "http://a/b".
Proof. reflexivity. Qed.

(** C2, as stated, fails: the joiner does not return
    ["http://a/b/c?x=1&y=2"] for the segments ["http://a"], ["b?x=1"],
    ["c?y=2"]. *)
Lemma C2_urlJoin_query_not_reordered :
  urlJoin_result [VStr "http://a"; VStr "b?x=1"; VStr "c?y=2"]
  <> Returned "http://a/b/c?x=1&y=2".
Proof. vm_compute. discriminate. Qed.

(** C2 (amended): [urlJoin("http://a", "b?x=1", "c?y=2")] returns exactly
    ["http://a/b?x=1/c&y=2"]: the segments are joined in order with single
    slashes, the first [?] stays the query delimiter and the second [?]
    becomes [&]; the path segment [c] is not moved in front of the query. *)
Theorem C2_urlJoin_query_merge :
  urlJoin_result [VStr "http://a"; VStr "b?x=1"; VStr "c?y=2"]
  = Returned "http://a/b?x=1/c&y=2".
Proof. reflexivity. Qed.

(** C10: [urlJoin()] and [urlJoin([])] return the empty string and do
    not throw. *)
Theorem C10_urlJoin_empty :
  urlJoin_result [] = Returned "" /\ urlJoin_result [VArr []] = Returned "".
Proof. split; reflexivity. Qed.

(** C4 at its failing inputs: a non-string that follows a bare scheme
    is concatenated to it before any type check, so the joiner returns
    a string where the claim has it throw a [TypeError]. *)
Theorem C4_urlJoin_coerces_after_bare_scheme :
  urlJoin_result [VStr "http:"; VNull] = Returned "http://null" /\
  urlJoin_result [VStr "https://"; VUndefined] = Returned "https://undefined" /\
  urlJoin_result [VArr [VStr "file:"; VBool true; VStr "x"]] = Returned "file://true/x".
Proof. repeat split; reflexivity. Qed.

End UrlJoinExamples.

(* ================================================================== *)
(** * Properties of the API client                                     *)
(* ================================================================== *)

Section ClientFacts.
Import Js UrlJoin Subhosting.

Lemma constructor_sample :
  constructor sample_env None None None = Returned sample_client.
Proof. reflexivity. Qed.

(** A client constructed without options, as [main.tsx] does, has the
    default endpoint; an options object can replace it, even by
    [undefined]. *)
Lemma constructor_default_endpoint
    (Deno_env : string -> option string) (accessToken orgId : option string)
    (c : Client) :
  constructor Deno_env accessToken orgId None = Returned c ->
  endpoint (clientOptions c) = Some default_endpoint.
Proof.
  unfold constructor.
  destruct (nullish_or accessToken _) as [t|]; [|discriminate].
  destruct (String.eqb t ""); [discriminate|].
  destruct (nullish_or orgId _) as [o|]; [|discriminate].
  destruct (String.eqb o ""); [discriminate|].
  intros [= <-]. reflexivity.
Qed.

Example constructor_undefined_endpoint :
  constructor sample_env None None (Some {| endpoint := None |})
  = Returned {| accessToken := "token"; orgId := "org";
                clientOptions := {| endpoint := None |} |}.
Proof. reflexivity. Qed.

(** [fetchUrl] is [fetch]: it has no path of its own. *)
Lemma fetchUrl_is_fetch (self : Client) (url : string) (options : option RequestInit) :
  fetchUrl self url options = fetch self url options.
Proof. reflexivity. Qed.

(** C1 at its failing input: [fetchUrl] hands the fully qualified URL
    to [fetch], which joins it to the endpoint; the request goes to the
    endpoint followed by the whole URL, not to the URL itself. *)
Theorem C1_fetchUrl_joins_endpoint (w : world) :
  map req_url (sent (fst (fetchUrl sample_client next_page None w)))
  = (map req_url (sent w)
     ++ ["https://api.deno.com/v1/https://api.deno.com/v1/projects?page=2"])%list.
Proof.
  unfold fetchUrl, fetch, bind, lift, global_fetch. simpl.
  rewrite map_app. reflexivity.
Qed.

(** C3: construction throws exactly when the token or the organisation
    id does not resolve (explicit argument first, environment variable
    otherwise) to a non-empty string; when both resolve, it returns a
    client whose [accessToken] and [orgId] are the resolved strings. *)
Theorem C3_constructor_resolution
    (Deno_env : string -> option string) (accessToken orgId : option string)
    (options : option ClientOptions) :
  ((exists e, constructor Deno_env accessToken orgId options = Threw e) <->
   (unresolvable accessToken (Deno_env "DEPLOY_ACCESS_TOKEN") \/
    unresolvable orgId (Deno_env "DEPLOY_ORG_ID")))
  /\
  (forall t o,
     resolves_to accessToken (Deno_env "DEPLOY_ACCESS_TOKEN") t ->
     resolves_to orgId (Deno_env "DEPLOY_ORG_ID") o ->
     exists c, constructor Deno_env accessToken orgId options = Returned c
               /\ Subhosting.accessToken c = t /\ Subhosting.orgId c = o).
Proof.
  unfold constructor, unresolvable, resolves_to, resolved, nullish_or.
  destruct accessToken as [a|], orgId as [o|];
    destruct (Deno_env "DEPLOY_ACCESS_TOKEN") as [ea|];
    destruct (Deno_env "DEPLOY_ORG_ID") as [eo|];
    repeat match goal with
           | |- context [String.eqb ?x ""] =>
               destruct (String.eqb_spec x ""); subst
           end;
    (split;
     [ split;
       [ intros [e He]; try discriminate;
         solve [ left; intros s [Hs Hn]; congruence
               | right; intros s [Hs Hn]; congruence ]
       | intros [H | H]; try (eexists; reflexivity);
         exfalso; eapply H; split; solve [reflexivity | eassumption] ]
     | intros t' o' [Ht Hnt] [Ho Hno]; try congruence;
       eexists; repeat split; simpl; congruence ]).
Qed.

Lemma C3_constructor_resolution_witness :
  exists c, constructor sample_env None (Some "acme") None = Returned c
            /\ Subhosting.accessToken c = "token" /\ Subhosting.orgId c = "acme".
Proof.
  apply (proj2 (C3_constructor_resolution sample_env None (Some "acme") None)).
  - split; [reflexivity | discriminate].
  - split; [reflexivity | discriminate].
Defined.

(** C8: an explicit empty string for the token or for the organisation
    id makes construction throw whatever the environment holds, and
    with both arguments given the environment plays no part at all. *)
Theorem C8_constructor_empty_argument
    (Deno_env : string -> option string) (accessToken orgId : option string)
    (options : option ClientOptions) :
  accessToken = Some "" \/ orgId = Some "" ->
  (exists e, constructor Deno_env accessToken orgId options = Threw e) /\
  (accessToken = Some "" ->
   constructor Deno_env accessToken orgId options = Threw token_required) /\
  (forall other_env a o,
     accessToken = Some a -> orgId = Some o ->
     constructor other_env accessToken orgId options
     = constructor Deno_env accessToken orgId options).
Proof.
  intros H. repeat split.
  - destruct H as [-> | ->]; unfold constructor; simpl.
    + eexists; reflexivity.
    + destruct (nullish_or accessToken (Deno_env "DEPLOY_ACCESS_TOKEN")) as [t|];
        [destruct (String.eqb t "")|]; eexists; reflexivity.
  - intros ->. reflexivity.
  - intros other_env a o -> ->. reflexivity.
Qed.

Lemma C8_constructor_empty_argument_witness :
  (exists e, constructor sample_env (Some "") None None = Threw e) /\
  (exists e, constructor sample_env None (Some "") None = Threw e).
Proof.
  split.
  - apply (C8_constructor_empty_argument sample_env (Some "") None None).
    left; reflexivity.
  - apply (C8_constructor_empty_argument sample_env None (Some "") None).
    right; reflexivity.
Defined.

End ClientFacts.

(* ================================================================== *)
(** * Properties of the page controller                                *)
(* ================================================================== *)

Section StringFacts.

Lemma append_nil_r (s : string) : s ++ "" = s.
Proof. induction s as [|c s IH]; simpl; [reflexivity | now rewrite IH]. Qed.

Lemma append_assoc (a b c : string) : (a ++ b) ++ c = a ++ (b ++ c).
Proof. induction a as [|x a IH]; simpl; [reflexivity | now rewrite IH]. Qed.

Lemma append_cons (x : ascii) (a b : string) : String x a ++ b = String x (a ++ b).
Proof. reflexivity. Qed.

Lemma append_eq_nil (a b : string) : a ++ b = "" -> a = "" /\ b = "".
Proof. destruct a; simpl; intros H; [now split | discriminate]. Qed.

End StringFacts.

Section PageFacts.
Import Js App.

(** The [forEach] loop of [setDeployments] appends one line per
    deployment to what it started from. *)
Lemma render_lines (ds : list Deployment) (html : string) :
  fold_left (fun html d => html ++ deployment_line d) ds html
  = html ++ join "" (map deployment_line ds).
Proof.
  revert html. induction ds as [|d ds IH]; intros html; simpl.
  - now rewrite append_nil_r.
  - rewrite IH, append_assoc. destruct ds as [|d' ds]; simpl.
    + now rewrite append_nil_r.
    + reflexivity.
Qed.

Lemma deployment_line_tag (d : Deployment) :
  starts_with "<div" (deployment_line d) = true.
Proof. reflexivity. Qed.

Lemma lines_not_placeholder (ds : list Deployment) :
  ds <> [] -> join "" (map deployment_line ds) <> placeholder.
Proof.
  destruct ds as [|d ds]; [congruence | intros _ H].
  assert (Hs : starts_with "<div" (join "" (map deployment_line (d :: ds))) = true).
  { simpl. destruct (map deployment_line ds); reflexivity. }
  rewrite H in Hs. discriminate.
Qed.

Lemma join_concat (sep : string) (l : list string) :
  join sep l = String.concat sep l.
Proof.
  induction l as [|x l IH]; [reflexivity|].
  destruct l as [|y l]; [reflexivity|].
  cbn [join String.concat] in *. now rewrite IH.
Qed.

(** C7: an absent or empty list of deployments puts exactly the
    placeholder paragraph in the panel, never an empty panel; a
    non-empty list puts there one entry per deployment, in order, each
    entry being the [div] of class [deployment-line] with the link to
    the first domain, the domain (or "URL pending..."), the status and
    the time of the update, and that is never the placeholder. *)
Theorem C7_setDeployments_rendering (p : page) (deployments : option (list Deployment)) :
  (deployments = None \/ deployments = Some [] ->
   snd (setDeployments (Deployments deployments) p) = Returned tt /\
   deployments_innerHTML (fst (setDeployments (Deployments deployments) p))
   = "<p>No deployments for this project.</p>" /\
   deployments_innerHTML (fst (setDeployments (Deployments deployments) p))
   <> join "" (map deployment_line []) /\
   deployments_innerHTML (fst (setDeployments (Deployments deployments) p)) <> "") /\
  (forall ds, deployments = Some ds -> ds <> [] ->
   snd (setDeployments (Deployments deployments) p) = Returned tt /\
   deployments_innerHTML (fst (setDeployments (Deployments deployments) p))
   = join "" (map deployment_line ds) /\
   length (map deployment_line ds) = length ds /\
   deployments_innerHTML (fst (setDeployments (Deployments deployments) p))
   <> placeholder /\
   deployments_innerHTML (fst (setDeployments (Deployments deployments) p))
   = String.concat ""
       (map (fun d : Deployment =>
               let q := String "034"%char "" in
               let n := String "010"%char "" in
               "<div class=" ++ q ++ "deployment-line" ++ q ++ ">" ++ n ++
               "        <a href=" ++ q ++ "https://"
               ++ match domains d with
                  | dom :: _ => dom
                  | [] => "undefined"
                  end
               ++ q ++ " target=" ++ q ++ "_blank" ++ q ++ ">" ++ n ++
               "          "
               ++ match domains d with
                  | dom :: _ => if String.eqb dom "" then "URL pending..." else dom
                  | [] => "URL pending..."
                  end ++ n ++
               "        </a>" ++ n ++
               "        <span class=" ++ q ++ "timestamp" ++ q ++ ">" ++ n ++
               "          <span class=" ++ q ++ "status " ++ status d ++ q ++ ">"
               ++ status d ++ "</span>" ++ n ++
               "          " ++ updatedAt d ++ n ++
               "        </span>" ++ n ++
               "      </div>") ds)).
Proof.
  split.
  - intros [-> | ->]; simpl; repeat split; discriminate.
  - intros ds -> Hne. destruct ds as [|d ds]; [congruence|].
    unfold setDeployments.
    replace (length (d :: ds) <? 1)%nat with false by reflexivity.
    cbn [set_innerHTML fst snd deployments_innerHTML].
    rewrite render_lines. cbn [append].
    repeat split.
    + apply length_map.
    + apply lines_not_placeholder. discriminate.
    + rewrite join_concat. f_equal. apply map_ext. intros x.
      unfold deployment_line, first_domain, domain_or_pending, dq, nl.
      destruct (domains x); reflexivity.
Qed.

Lemma C7_setDeployments_rendering_witness :
  deployments_innerHTML (fst (setDeployments (Deployments (Some [])) offline_page))
  = placeholder /\
  deployments_innerHTML
    (fst (setDeployments
            (Deployments
               (Some [ {| domains := ["a.deno.dev"]; status := "success";
                          updatedAt := "2024-01-01T00:00:00Z" |} ])) offline_page))
  <> placeholder.
Proof.
  split.
  - apply (proj1 (C7_setDeployments_rendering offline_page (Some []))).
    right; reflexivity.
  - eapply (proj2 (C7_setDeployments_rendering offline_page _)).
    + reflexivity.
    + discriminate.
Defined.

(** C6: when the request of a poll is rejected, or its answer does not
    parse, [pollData] returns normally, hands the error to
    [console.error], and leaves the content of the panel as it was. *)
Theorem C6_pollData_failure_keeps_panel (p : page) (e : exn) :
  poll_fails p e ->
  snd (pollData p) = Returned tt /\
  deployments_innerHTML (fst (pollData p)) = deployments_innerHTML p /\
  console (fst (pollData p)) = (console p ++ [e])%list.
Proof.
  unfold poll_fails, poll_url, pollData, bind, try_catch, getProjectId, fetch,
    response_json, lift, console_error.
  intros [H | [dr [H Hj]]]; cbn [network]; rewrite H; [|rewrite Hj];
    repeat split; reflexivity.
Qed.

Lemma C6_pollData_failure_keeps_panel_witness :
  snd (pollData offline_page) = Returned tt /\
  deployments_innerHTML (fst (pollData offline_page)) = "<p>earlier content</p>" /\
  console (fst (pollData offline_page)) = [TypeError "Failed to fetch"].
Proof.
  apply (C6_pollData_failure_keeps_panel offline_page (TypeError "Failed to fetch")).
  left. reflexivity.
Defined.

End PageFacts.

(* ================================================================== *)
(** * The URL joiner on arbitrary segments                             *)
(* ================================================================== *)

Section UrlJoinFacts.
Import Js UrlJoin.

Lemma is_slash_eq (c : ascii) : is_slash c = true -> c = "/"%char.
Proof. unfold is_slash. apply Ascii.eqb_eq. Qed.

Lemma is_colon_eq (c : ascii) : is_colon c = true -> c = ":"%char.
Proof. unfold is_colon. apply Ascii.eqb_eq. Qed.

(** *** Splitting at question marks *)

Lemma split_not_nil (sep : ascii) (s : string) : split sep s <> [].
Proof.
  induction s as [|c s IH]; simpl; [discriminate|].
  destruct (Ascii.eqb c sep); [discriminate|].
  destruct (split sep s); [contradiction | discriminate].
Qed.

Lemma join_ampersands (s : string) : join "&" (split "?" s) = ampersands s.
Proof.
  induction s as [|c s IH]; simpl; [reflexivity|].
  destruct (Ascii.eqb_spec c "?") as [->|Hc].
  - destruct (split "?" s) as [|x xs] eqn:E; [now apply split_not_nil in E|].
    rewrite <- IH. reflexivity.
  - destruct (split "?" s) as [|x xs] eqn:E; [now apply split_not_nil in E|].
    rewrite <- IH. destruct xs; reflexivity.
Qed.

Lemma merge_query_walk (s : string) : merge_query s = keep_first_query s.
Proof.
  unfold merge_query. induction s as [|c s IH]; simpl; [reflexivity|].
  destruct (Ascii.eqb_spec c "?") as [->|Hc].
  - destruct (split "?" s) as [|x xs] eqn:E; [now apply split_not_nil in E|].
    rewrite <- join_ampersands, E. reflexivity.
  - destruct (split "?" s) as [|x xs] eqn:E; [now apply split_not_nil in E|].
    rewrite <- IH. reflexivity.
Qed.

Lemma ampersands_none (s : string) : count_char "?" s = 0 -> ampersands s = s.
Proof.
  induction s as [|c s IH]; simpl; [reflexivity|].
  destruct (Ascii.eqb c "?"); [discriminate|]. intros H. now rewrite IH.
Qed.

Lemma merge_query_fixed (s : string) : count_char "?" s <= 1 -> merge_query s = s.
Proof.
  rewrite merge_query_walk. induction s as [|c s IH]; simpl; [reflexivity|].
  destruct (Ascii.eqb c "?"); intros H.
  - rewrite ampersands_none; [reflexivity | lia].
  - now rewrite IH.
Qed.

(** *** Slashes before delimiters *)

Lemma strip_fixed (s : string) :
  slash_before_delim s = false -> strip_slash_before_delim s = s.
Proof.
  induction s as [|c s1 IH]; [reflexivity|].
  cbn [slash_before_delim]. intros H.
  apply orb_false_iff in H. destruct H as [Hd Hs]. specialize (IH Hs).
  cbn [strip_slash_before_delim].
  destruct (is_slash c); [|now rewrite IH].
  cbn [andb] in Hd. destruct s1 as [|d s2]; [reflexivity|].
  cbn [delim_follows] in Hd.
  destruct (Ascii.eqb d "?" || Ascii.eqb d "&"); [discriminate|].
  cbn [orb] in Hd.
  destruct (Ascii.eqb d "#"); [|now rewrite IH].
  cbn [andb] in Hd.
  destruct s2 as [|e s3]; [now rewrite IH|].
  destruct (Ascii.eqb e "!"); [now rewrite IH | discriminate].
Qed.

(** *** Trailing slashes *)

Lemma all_slashes_two (c : ascii) (s : string) :
  is_slash c = true -> all_slashes s = true -> s <> "" ->
  ends_with_two_slashes (String c s) = true.
Proof.
  revert c. induction s as [|d s IH]; intros c Hc Hs Hne; [congruence|].
  cbn [all_slashes] in Hs. apply andb_true_iff in Hs. destruct Hs as [Hd Hs].
  destruct s as [|d' s].
  - unfold is_slash in Hd. apply Ascii.eqb_eq in Hd. subst d.
    cbn [ends_with_two_slashes]. rewrite Hc. reflexivity.
  - assert (IH' := IH d Hd Hs ltac:(discriminate)).
    change (ends_with_two_slashes (String c (String d (String d' s))))
      with ((is_slash c && String.eqb (String d (String d' s)) "/")
            || ends_with_two_slashes (String d (String d' s))).
    rewrite IH'. apply orb_true_r.
Qed.

Lemma replace_trailing_fixed (s : string) :
  ends_with_two_slashes s = false -> replace_trailing_slashes "/" s = s.
Proof.
  induction s as [|c s IH]; [reflexivity|].
  intros H. cbn [replace_trailing_slashes].
  destruct (is_slash c) eqn:Hc; cbn [andb].
  - destruct (all_slashes s) eqn:Ha.
    + destruct s as [|d s].
      * apply is_slash_eq in Hc. now subst c.
      * rewrite all_slashes_two in H; [discriminate | assumption.. | discriminate].
    + cbn [ends_with_two_slashes] in H. apply orb_false_iff in H.
      now rewrite IH.
  - cbn [ends_with_two_slashes] in H. rewrite Hc in H. cbn in H. now rewrite IH.
Qed.

(** *** The scheme separator *)

Lemma scheme_span_app (s p r : string) : scheme_span s = (p, r) -> s = p ++ r.
Proof.
  revert p r. induction s as [|c s IH]; intros p r; cbn [scheme_span].
  - intros [= <- <-]. reflexivity.
  - destruct (is_slash c || is_colon c).
    + intros [= <- <-]. reflexivity.
    + destruct (scheme_span s) as [p' r']. intros [= <- <-].
      cbn. now rewrite <- (IH p' r').
Qed.

Lemma leading_slashes_zero (r : string) :
  leading_slashes r = 0 -> strip_leading_slashes r = r.
Proof.
  destruct r as [|a r]; cbn [leading_slashes strip_leading_slashes];
    [reflexivity|].
  destruct (is_slash a); [discriminate | reflexivity].
Qed.

Lemma leading_slashes_succ (r : string) (k : nat) :
  leading_slashes r = S k ->
  exists r', r = String "/" r' /\ leading_slashes r' = k
             /\ strip_leading_slashes r = strip_leading_slashes r'.
Proof.
  destruct r as [|a r]; cbn [leading_slashes strip_leading_slashes];
    [discriminate|].
  destruct (is_slash a) eqn:Ha; [|discriminate].
  apply is_slash_eq in Ha. subst a. intros [= H]. now exists r.
Qed.

Lemma leading_slashes_two (r : string) :
  leading_slashes r = 2 -> r = "//" ++ strip_leading_slashes r.
Proof.
  intros H.
  apply leading_slashes_succ in H. destruct H as [r1 [-> [H E1]]].
  apply leading_slashes_succ in H. destruct H as [r2 [-> [H E2]]].
  rewrite E1, E2, (leading_slashes_zero r2 H). reflexivity.
Qed.

Lemma leading_slashes_three (r : string) :
  leading_slashes r = 3 -> r = "///" ++ strip_leading_slashes r.
Proof.
  intros H.
  apply leading_slashes_succ in H. destruct H as [r1 [-> [H E1]]].
  rewrite E1. rewrite (leading_slashes_two r1 H) at 1. reflexivity.
Qed.

Lemma normalize_scheme_fixed (s : string) :
  scheme_normalized s = true -> normalize_scheme s = s.
Proof.
  unfold scheme_normalized, scheme_slashes, normalize_scheme, replace_scheme,
    match_scheme.
  destruct (scheme_span s) as [p r] eqn:E. apply scheme_span_app in E.
  destruct p as [|c p]; [now destruct (starts_with _ s)|].
  destruct r as [|d r]; [now destruct (starts_with _ s)|].
  destruct (is_colon d) eqn:Hd; [|now destruct (starts_with _ s)].
  apply is_colon_eq in Hd. subst d.
  destruct (starts_with "file:///" s); intros H; apply Nat.eqb_eq in H.
  - apply leading_slashes_three in H. rewrite E. rewrite H at 2. reflexivity.
  - apply leading_slashes_two in H. rewrite E. rewrite H at 2. reflexivity.
Qed.

(** *** Fixed points of the joiner *)






(** *** Segments that are all strings, and segments that are not *)

Lemma components_strings (l : list string) (n i : nat) (acc : list string) :
  exists r, components n i (map VStr l) acc = Returned r.
Proof.
  revert i acc. induction l as [|s l IH]; intros i acc; cbn [map components].
  - now exists acc.
  - destruct (String.eqb s ""); apply IH.
Qed.

Lemma components_non_string (l : list value) (n i : nat) (acc : list string) :
  (exists v, In v l /\ is_string v = false) ->
  exists m, components n i l acc = Threw (TypeError m).
Proof.
  revert i acc. induction l as [|v l IH]; intros i acc [x [Hin Hx]].
  - destruct Hin.
  - destruct v as [| |b|s|elems]; cbn [components];
      try (eexists; reflexivity).
    assert (Hl : exists v, In v l /\ is_string v = false).
    { destruct Hin as [<- | Hin]; [discriminate | now exists x]. }
    destruct (String.eqb s ""); now apply IH.
Qed.

Lemma normalize_strings_return (l : list string) :
  exists s, snd (normalize (map VStr l)) = Returned s.
Proof.
  destruct l as [|s0 l]; [now exists ""|].
  cbn [map normalize].
  destruct (is_bare_scheme s0 && (1 <? length (VStr s0 :: map VStr l))%nat).
  - destruct l as [|next l]; cbn [map to_string snd].
    + destruct (components_strings [normalize_scheme s0] 1 0 []) as [r Hr].
      cbn [map length] in *. rewrite Hr. now eexists.
    + destruct (components_strings (normalize_scheme (s0 ++ next) :: l)
                  (length (VStr (normalize_scheme (s0 ++ next)) :: map VStr l))
                  0 []) as [r Hr].
      cbn [map] in Hr. rewrite Hr. now eexists.
  - cbn [snd].
    destruct (components_strings (normalize_scheme s0 :: l)
                (length (VStr (normalize_scheme s0) :: map VStr l)) 0 [])
      as [r Hr].
    cbn [map] in Hr. rewrite Hr. now eexists.
Qed.

(** Segments that are all strings are joined without a throw, given
    one by one or as an array. *)
Lemma urlJoin_strings_return (l : list string) :
  (exists s, urlJoin_result (map VStr l) = Returned s) /\
  (exists s, urlJoin_result [VArr (map VStr l)] = Returned s).
Proof.
  destruct (normalize_strings_return l) as [s Hs]. split; exists s.
  - unfold urlJoin_result. destruct l; exact Hs.
  - unfold urlJoin_result, urlJoin.
    destruct (normalize (map VStr l)). exact Hs.
Qed.

(** A first segment that is not a string makes [normalize] throw a
    [TypeError]; so does any later one, unless it stands second behind a
    bare scheme, where it is concatenated to the scheme instead. *)
Lemma normalize_non_string (l : list value) :
  (exists v, In v l /\ is_string v = false) ->
  (forall s0 next rest,
     l = VStr s0 :: next :: rest -> is_bare_scheme s0 = true ->
     is_string next = true) ->
  exists m, snd (normalize l) = Threw (TypeError m).
Proof.
  intros [x [Hin Hx]] Hmerge.
  destruct l as [|v0 l]; [destruct Hin|].
  destruct v0 as [| |b|s0|elems]; cbn [normalize snd];
    try (eexists; reflexivity).
  assert (Hl : exists v, In v l /\ is_string v = false).
  { destruct Hin as [<- | Hin]; [discriminate | now exists x]. }
  clear Hin. destruct Hl as [y [Hin Hy]].
  destruct (is_bare_scheme s0) eqn:Hb; cbn [andb].
  - destruct l as [|next l]; [destruct Hin|].
    replace (1 <? length (VStr s0 :: next :: l))%nat with true by reflexivity.
    assert (Hn := Hmerge s0 next l eq_refl Hb).
    destruct next; try discriminate. cbn [to_string snd].
    destruct Hin as [<- | Hin]; [discriminate|].
    destruct (components_non_string (VStr (normalize_scheme (s0 ++ s)) :: l)
                (length (VStr (normalize_scheme (s0 ++ s)) :: l)) 0 [])
      as [m Hm].
    { exists y. split; [now right | assumption]. }
    rewrite Hm. now exists m.
  - cbn [snd].
    destruct (components_non_string (VStr (normalize_scheme s0) :: l)
                (length (VStr (normalize_scheme s0) :: l)) 0 [])
      as [m Hm].
    { exists y. split; [now right | assumption]. }
    rewrite Hm. now exists m.
Qed.

End UrlJoinFacts.

(* ================================================================== *)
(** * What the joiner leaves at the end of a URL                       *)
(* ================================================================== *)

Section PlainSuffix.
Import Js UrlJoin.

(** A non-empty text without slash, colon or question mark. *)
Variable t : string.
Hypothesis t_plain : plain t = true.
Hypothesis t_not_empty : t <> "".

Lemma plain_cons (c : ascii) (u : string) :
  plain (String c u) = true ->
  is_slash c = false /\ is_colon c = false /\ Ascii.eqb c "?" = false
  /\ plain u = true.
Proof.
  cbn [plain]. intros H.
  apply andb_true_iff in H. destruct H as [H Hu].
  apply andb_true_iff in H. destruct H as [H Hq].
  apply andb_true_iff in H. destruct H as [Hs Hc].
  repeat split; try assumption; now apply negb_true_iff.
Qed.

Lemma ends_with_refl (s : string) : ends_with s s.
Proof. now exists "". Qed.

Lemma ends_with_cons (c : ascii) (u s : string) :
  ends_with u s -> ends_with u (String c s).
Proof. intros [a ->]. now exists (String c a). Qed.

Lemma ends_with_app (a u s : string) : ends_with u s -> ends_with u (a ++ s).
Proof. intros [b ->]. exists (a ++ b). now rewrite append_assoc. Qed.

Lemma strip_leading_plain (u : string) :
  plain u = true -> strip_leading_slashes u = u.
Proof.
  destruct u as [|c u]; [reflexivity|]. intros H.
  destruct (plain_cons c u H) as [Hs _].
  cbn [strip_leading_slashes]. now rewrite Hs.
Qed.

Lemma all_slashes_plain (u : string) :
  plain u = true -> u <> "" -> all_slashes u = false.
Proof.
  destruct u as [|c u]; [congruence|]. intros H _.
  destruct (plain_cons c u H) as [Hs _].
  cbn [all_slashes]. now rewrite Hs.
Qed.

Lemma strip_leading_suffix (a : string) :
  ends_with t (strip_leading_slashes (a ++ t)).
Proof.
  induction a as [|c a IH]; cbn [append strip_leading_slashes].
  - rewrite strip_leading_plain by assumption. apply ends_with_refl.
  - destruct (is_slash c); [exact IH|]. now exists (String c a).
Qed.

Lemma all_slashes_suffix (a : string) : all_slashes (a ++ t) = false.
Proof.
  induction a as [|c a IH]; cbn [append all_slashes].
  - now apply all_slashes_plain.
  - rewrite IH. apply andb_false_r.
Qed.

Lemma replace_trailing_plain (r u : string) :
  plain u = true -> replace_trailing_slashes r u = u.
Proof.
  induction u as [|c u IH]; [reflexivity|]. intros H.
  destruct (plain_cons c u H) as [Hs [_ [_ Hu]]].
  cbn [replace_trailing_slashes]. rewrite Hs. cbn [andb]. now rewrite IH.
Qed.

Lemma replace_trailing_suffix (r a : string) :
  replace_trailing_slashes r (a ++ t) = a ++ t.
Proof.
  induction a as [|c a IH]; cbn [append].
  - now apply replace_trailing_plain.
  - cbn [replace_trailing_slashes].
    rewrite all_slashes_suffix, andb_false_r, IH. reflexivity.
Qed.

Lemma scheme_span_plain (u : string) :
  plain u = true -> scheme_span u = (u, "").
Proof.
  induction u as [|c u IH]; [reflexivity|]. intros H.
  destruct (plain_cons c u H) as [Hs [Hc [_ Hu]]].
  cbn [scheme_span]. rewrite Hs, Hc, (IH Hu). reflexivity.
Qed.

Lemma scheme_span_suffix (a : string) :
  scheme_span (a ++ t)
  = match scheme_span a with
    | (p, "") => (p ++ t, "")
    | (p, String d r) => (p, String d r ++ t)
    end.
Proof.
  induction a as [|c a IH]; cbn [append scheme_span].
  - now apply scheme_span_plain.
  - destruct (is_slash c || is_colon c); [reflexivity|].
    rewrite IH. destruct (scheme_span a) as [p [|d r]]; reflexivity.
Qed.

Lemma replace_scheme_suffix (sep a : string) :
  ends_with t (replace_scheme sep (a ++ t)).
Proof.
  unfold replace_scheme, match_scheme. rewrite scheme_span_suffix.
  destruct (scheme_span a) as [p [|d r]].
  - destruct (p ++ t); now exists a.
  - cbn [append]. destruct p as [|c p]; [now exists a|].
    destruct (is_colon d); [|now exists a].
    apply ends_with_app, ends_with_app, strip_leading_suffix.
Qed.

Lemma normalize_scheme_suffix (a : string) :
  ends_with t (normalize_scheme (a ++ t)).
Proof.
  unfold normalize_scheme.
  destruct (starts_with "file:///" (a ++ t)); apply replace_scheme_suffix.
Qed.

(** [strip_slash_before_delim] only leaves slashes out. *)
Lemma strip_drops_bounded (n : nat) (s : string) :
  String.length s <= n -> drops_slashes s (strip_slash_before_delim s).
Proof.
  revert s. induction n as [|n IH]; intros s Hn.
  - destruct s; [constructor | cbn in Hn; lia].
  - destruct s as [|c s1]; [constructor|].
    cbn [String.length] in Hn.
    assert (H1 : drops_slashes s1 (strip_slash_before_delim s1))
      by (apply IH; lia).
    cbn [strip_slash_before_delim].
    destruct (is_slash c) eqn:Hc; [|now constructor].
    apply is_slash_eq in Hc. subst c.
    destruct s1 as [|d s2]; [repeat constructor|].
    cbn [String.length] in Hn.
    assert (H2 : drops_slashes s2 (strip_slash_before_delim s2))
      by (apply IH; lia).
    destruct (Ascii.eqb d "?" || Ascii.eqb d "&").
    { apply drops_drop, drops_keep, H2. }
    destruct (Ascii.eqb d "#"); [|now apply drops_keep].
    destruct s2 as [|e s3]; [now apply drops_keep|].
    destruct (Ascii.eqb e "!"); [now apply drops_keep|].
    cbn [String.length] in Hn.
    apply drops_drop, drops_keep, drops_keep, IH. lia.
Qed.

Lemma strip_drops (s : string) : drops_slashes s (strip_slash_before_delim s).
Proof. now apply (strip_drops_bounded (String.length s)). Qed.

Lemma drops_plain (u v : string) :
  drops_slashes u v -> plain u = true -> v = u.
Proof.
  induction 1 as [|c s u' _ IH|s u' _ IH]; intros Hp.
  - reflexivity.
  - destruct (plain_cons c s Hp) as [_ [_ [_ Hs]]]. now rewrite IH.
  - destruct (plain_cons "/" s Hp) as [Hs _]. discriminate.
Qed.

Lemma drops_suffix (a v : string) :
  drops_slashes (a ++ t) v -> ends_with t v.
Proof.
  revert v. induction a as [|c a IH]; intros v; cbn [append].
  - intros H. rewrite (drops_plain t v H t_plain). apply ends_with_refl.
  - intros H. inversion H; subst.
    + apply ends_with_cons, IH. assumption.
    + apply IH. assumption.
Qed.

Lemma strip_suffix (a : string) :
  ends_with t (strip_slash_before_delim (a ++ t)).
Proof. apply (drops_suffix a), strip_drops. Qed.

Lemma ampersands_plain (u : string) : plain u = true -> ampersands u = u.
Proof.
  induction u as [|c u IH]; [reflexivity|]. intros H.
  destruct (plain_cons c u H) as [_ [_ [Hq Hu]]].
  cbn [ampersands]. now rewrite Hq, IH.
Qed.

Lemma keep_first_query_plain (u : string) :
  plain u = true -> keep_first_query u = u.
Proof.
  induction u as [|c u IH]; [reflexivity|]. intros H.
  destruct (plain_cons c u H) as [_ [_ [Hq Hu]]].
  cbn [keep_first_query]. now rewrite Hq, IH.
Qed.

Lemma ampersands_suffix (a : string) : ampersands (a ++ t) = ampersands a ++ t.
Proof.
  induction a as [|c a IH]; cbn [append ampersands].
  - now apply ampersands_plain.
  - now rewrite IH.
Qed.

Lemma merge_query_suffix (a : string) : ends_with t (merge_query (a ++ t)).
Proof.
  rewrite merge_query_walk.
  induction a as [|c a IH]; cbn [append keep_first_query].
  - rewrite keep_first_query_plain by assumption. apply ends_with_refl.
  - destruct (Ascii.eqb c "?").
    + rewrite ampersands_suffix. now exists (String c (ampersands a)).
    + now apply ends_with_cons.
Qed.

Lemma append_suffix_not_empty (a : string) : String.eqb (a ++ t) "" = false.
Proof.
  apply String.eqb_neq. intros H. apply append_eq_nil in H. tauto.
Qed.

(** Joining an endpoint with a path keeps a plain end of the path at
    the end of the URL. *)
Lemma urlJoin_two_suffix (e path : string) :
  exists s, urlJoin_result [VStr e; VStr (path ++ t)] = Returned s
            /\ ends_with t s.
Proof.
  unfold urlJoin_result, urlJoin. cbn [snd normalize].
  replace (1 <? length [VStr e; VStr (path ++ t)])%nat with true by reflexivity.
  rewrite andb_true_r.
  destruct (is_bare_scheme e).
  - cbn [to_string snd length]. rewrite <- append_assoc.
    destruct (normalize_scheme_suffix (e ++ path)) as [x ->].
    cbn [components]. rewrite append_suffix_not_empty.
    cbn [Nat.ltb Nat.leb Nat.sub app join].
    rewrite replace_trailing_suffix.
    destruct (strip_suffix x) as [y ->].
    eexists. split; [reflexivity | apply merge_query_suffix].
  - cbn [snd length components].
    destruct (strip_leading_suffix path) as [x Hx].
    destruct (String.eqb (normalize_scheme e) "").
    + cbn [components]. rewrite append_suffix_not_empty.
      cbn [Nat.ltb Nat.leb Nat.sub app join].
      rewrite Hx, replace_trailing_suffix.
      destruct (strip_suffix x) as [y ->].
      eexists. split; [reflexivity | apply merge_query_suffix].
    + cbn [components]. rewrite append_suffix_not_empty.
      cbn [Nat.ltb Nat.leb Nat.sub app join].
      rewrite Hx, replace_trailing_suffix.
      rewrite <- !append_assoc.
      match goal with
      | |- context [strip_slash_before_delim (?a ++ t)] =>
          destruct (strip_suffix a) as [y ->]
      end.
      eexists. split; [reflexivity | apply merge_query_suffix].
Qed.

End PlainSuffix.

(* ================================================================== *)
(** * The deployments route                                            *)
(* ================================================================== *)

Section ServerFacts.
Import Js UrlJoin Subhosting Server.

Lemma order_desc_serialized :
  URLSearchParams_toString (Some [("order", "desc")]) = "order=desc".
Proof. reflexivity. Qed.

Lemma deployments_path_split (c : context) :
  deployments_path c
  = ("/projects/" ++ or_empty (lookup "projectId" (req_query c))
     ++ "/deployments?") ++ "order=desc".
Proof.
  unfold deployments_path.
  change "/deployments?order=desc" with ("/deployments?" ++ "order=desc").
  now rewrite !append_assoc.
Qed.

(** Whatever the browser's request holds, the one request the handler
    of [GET /deployments] sends is a GET to the join of the endpoint
    with [/projects/<projectId>/deployments?order=desc], a URL whose
    text ends in [order=desc]. *)
Lemma deployments_route_request
    (shc : Client) (e : string) (c : context) (w : world) :
  endpoint (clientOptions shc) = Some e ->
  exists url,
    urlJoin_result [VStr e; VStr (deployments_path c)] = Returned url /\
    ends_with "order=desc" url /\
    sent (fst (get_deployments shc c w))
    = (sent w ++ [ {| req_url := url;
                      req_init := {| method := Some "GET";
                                     headers := Some (HeadersObject (default_headers shc));
                                     body := None |} |} ])%list /\
    sent (fst (get_deployments shc c w))
    = sent (fst (listDeployments shc
                   (or_empty (lookup "projectId" (req_query c)))
                   (Some [("order", "desc")]) w)).
Proof.
  intros He.
  destruct (urlJoin_two_suffix "order=desc" eq_refl ltac:(discriminate) e
              ("/projects/" ++ or_empty (lookup "projectId" (req_query c))
               ++ "/deployments?")) as [url [Hu Hend]].
  rewrite <- deployments_path_split in Hu.
  exists url. split; [exact Hu|]. split; [exact Hend|].
  unfold get_deployments, listDeployments, fetch, bind, lift, response_json, ret.
  rewrite He, order_desc_serialized. cbn [optional_value].
  change ("/projects/" ++ or_empty (lookup "projectId" (req_query c))
          ++ "/deployments?" ++ "order=desc") with (deployments_path c).
  rewrite Hu.
  unfold global_fetch, default_headers. cbn [get_init headers method body Object_assign fold_left].
  match goal with
  | |- context [network w ?r] => destruct (network w r) as [dr|err]
  end; [destruct (json dr)|]; split; reflexivity.
Qed.

(** The request of the example, written out. *)
Example deployments_route_example :
  map req_url (sent (fst (get_deployments sample_client ascending_request quiet_world)))
  = ["https://api.deno.com/v1/projects/p1/deployments?order=desc"].
Proof. reflexivity. Qed.

End ServerFacts.

(* ================================================================== *)
(** * More on the URL joiner                                           *)
(* ================================================================== *)

Section UrlJoinMore.
Import Js UrlJoin Shapes.

Lemma urlJoin_array_is_normalize (l : list value) :
  urlJoin_result [VArr l] = snd (normalize l).
Proof.
  unfold urlJoin_result, urlJoin. cbn [typeof].
  now destruct (normalize l).
Qed.

Lemma urlJoin_strings_is_normalize (l : list string) :
  urlJoin_result (map VStr l) = snd (normalize (map VStr l)).
Proof. destruct l; reflexivity. Qed.

(** X1: segments that are all strings are joined without a throw, and
    giving them one by one or as one array gives the same string. *)
Theorem X1_urlJoin_strings_never_throw (l : list string) :
  exists s, urlJoin_result (map VStr l) = Returned s
            /\ urlJoin_result [VArr (map VStr l)] = Returned s.
Proof.
  destruct (normalize_strings_return l) as [s Hs]. exists s.
  now rewrite urlJoin_array_is_normalize, urlJoin_strings_is_normalize.
Qed.

(** X2: an array with a segment that is not a string makes the joiner
    throw a [TypeError], unless that segment stands second behind a bare
    scheme. *)
Theorem X2_urlJoin_rejects_non_strings (l : list value) :
  (exists v, In v l /\ is_string v = false) ->
  (forall s0 next rest,
     l = VStr s0 :: next :: rest -> is_bare_scheme s0 = true ->
     is_string next = true) ->
  exists m, urlJoin_result [VArr l] = Threw (TypeError m).
Proof.
  intros Hv Hm. rewrite urlJoin_array_is_normalize.
  now apply normalize_non_string.
Qed.

Lemma X2_urlJoin_rejects_non_strings_witness :
  exists m, urlJoin_result [VArr [VStr "http://a"; VStr "b"; VNull]]
            = Threw (TypeError m).
Proof.
  apply (X2_urlJoin_rejects_non_strings [VStr "http://a"; VStr "b"; VNull]).
  - exists VNull. split; [right; right; left; reflexivity | reflexivity].
  - intros s0 next rest H _. injection H as _ <- _. reflexivity.
Defined.

(** X3: a first argument that is neither a string nor an array makes
    the joiner throw a [TypeError] whatever follows it, and the
    arguments stay as they were. *)
Theorem X3_urlJoin_rejects_first_argument (first : value) (others : list value) :
  is_string first = false ->
  (forall elems, first <> VArr elems) ->
  exists m, urlJoin (first :: others) = (first :: others, Threw (TypeError m)).
Proof.
  intros Hs Ha.
  destruct first as [| |b|s|elems]; try discriminate;
    try (eexists; reflexivity).
  now destruct (Ha elems).
Qed.

Lemma X3_urlJoin_rejects_first_argument_witness :
  exists m, urlJoin [VUndefined; VStr "a"]
            = ([VUndefined; VStr "a"], Threw (TypeError m)).
Proof.
  apply (X3_urlJoin_rejects_first_argument VUndefined [VStr "a"]).
  - reflexivity.
  - discriminate.
Defined.

(** *** At most one question mark *)

Lemma count_ampersands (s : string) : count_char "?" (ampersands s) = 0.
Proof.
  induction s as [|c s IH]; [reflexivity|]. cbn [ampersands count_char].
  rewrite IH. destruct (Ascii.eqb_spec c "?") as [->|Hc]; [reflexivity|].
  apply Ascii.eqb_neq in Hc. now rewrite Hc.
Qed.

Lemma count_merge_query (s : string) : count_char "?" (merge_query s) <= 1.
Proof.
  rewrite merge_query_walk. induction s as [|c s IH]; cbn [keep_first_query].
  - cbn. lia.
  - destruct (Ascii.eqb c "?") eqn:Hc; cbn [count_char]; rewrite Hc.
    + rewrite count_ampersands. lia.
    + lia.
Qed.

Lemma normalize_result_shape (l : list value) (s : string) :
  snd (normalize l) = Returned s -> s = "" \/ exists u, s = merge_query u.
Proof.
  destruct l as [|v l]; cbn [normalize snd].
  - intros [= <-]. now left.
  - destruct v as [| |b|s0|elems]; try discriminate.
    destruct (if is_bare_scheme s0 && (1 <? length (VStr s0 :: l))%nat
              then match l with
                   | [] => (s0, l)
                   | next :: rest' => (s0 ++ to_string next, rest')
                   end
              else (s0, l)) as [first others].
    cbn [snd].
    destruct (components _ 0 _ []) as [r|e]; [|discriminate].
    intros [= <-]. right. now eexists.
Qed.

(** X4: whatever its arguments, a string the joiner returns has at
    most one question mark. *)
Theorem X4_urlJoin_one_question_mark (args : list value) (s : string) :
  urlJoin_result args = Returned s -> count_char "?" s <= 1.
Proof.
  intros H.
  assert (Hn : exists l, snd (normalize l) = Returned s).
  { unfold urlJoin_result, urlJoin in H.
    destruct args as [|first others]; [now exists []|].
    destruct first as [| |b|s0|elems]; cbn [typeof snd] in H;
      try discriminate; try (now eexists; exact H).
    exists elems. now destruct (normalize elems). }
  destruct Hn as [l Hl].
  destruct (normalize_result_shape l s Hl) as [-> | [u ->]].
  - cbn. lia.
  - apply count_merge_query.
Qed.

Lemma X4_urlJoin_one_question_mark_witness :
  count_char "?" "http://a/b?x=1/c&y=2" <= 1.
Proof.
  apply (X4_urlJoin_one_question_mark
           [VStr "http://a"; VStr "b?x=1"; VStr "c?y=2"]).
  reflexivity.
Defined.

End UrlJoinMore.

(* ================================================================== *)
(** * Slashes and empty segments between segments                      *)
(* ================================================================== *)

Section Joints.
Import Js UrlJoin Shapes.

Lemma ltb_shift (i n : nat) : (S i <? S n - 1)%nat = (i <? n - 1)%nat.
Proof.
  destruct n as [|n]; [reflexivity|].
  destruct (Nat.ltb_spec (S i) (S (S n) - 1)), (Nat.ltb_spec i (S n - 1));
    try reflexivity; lia.
Qed.

(** Behind the first segment, the loop does the same at index [S i] of
    [S n] segments as at index [i] of [n]. *)
Lemma components_shift (l : list string) (n i : nat) (acc : list string) :
  1 <= i ->
  components (S n) (S i) (map VStr l) acc = components n i (map VStr l) acc.
Proof.
  revert i acc. induction l as [|s l IH]; intros i acc Hi; [reflexivity|].
  cbn [map components]. rewrite ltb_shift.
  replace (0 <? i)%nat with true by (symmetry; apply Nat.ltb_lt; lia).
  replace (0 <? S i)%nat with true by reflexivity.
  destruct (String.eqb s ""); apply IH; lia.
Qed.

Lemma components_elide (l r : list string) (n i : nat) (acc : list string) :
  r <> [] -> (l = [] -> 1 <= i) -> n = i + length l + length r ->
  components (S n) i (map VStr (l ++ "" :: r)) acc
  = components n i (map VStr (l ++ r)) acc.
Proof.
  intros Hr. revert n i acc.
  induction l as [|x l IH]; intros n i acc Hi Hn.
  - cbn [app map components String.eqb]. apply components_shift. now apply Hi.
  - cbn [app map components].
    assert (Hlen : 1 <= length r) by (destruct r; [congruence | cbn; lia]).
    cbn [length] in Hn.
    replace (i <? S n - 1)%nat with true by (symmetry; apply Nat.ltb_lt; lia).
    replace (i <? n - 1)%nat with true by (symmetry; apply Nat.ltb_lt; lia).
    destruct (String.eqb x ""); apply IH; try lia; intros _; lia.
Qed.

Lemma components_leading_slash (l r : list string) (s : string)
    (n i : nat) (acc : list string) :
  s <> "" -> (l = [] -> 1 <= i) ->
  components n i (map VStr (l ++ String "/" s :: r)) acc
  = components n i (map VStr (l ++ s :: r)) acc.
Proof.
  intros Hs. revert i acc. induction l as [|x l IH]; intros i acc Hi.
  - cbn [app map components String.eqb].
    apply String.eqb_neq in Hs. rewrite Hs.
    replace (0 <? i)%nat with true
      by (symmetry; apply Nat.ltb_lt; specialize (Hi eq_refl); lia).
    reflexivity.
  - cbn [app map components].
    destruct (String.eqb x ""); apply IH; intros _; lia.
Qed.

(** Two calls whose segments agree up to the point where the first
    segment is settled (merged with the second, when it is a bare
    scheme) give the same result when the loop does. *)
Lemma normalize_two_lists (a : string) (l l' : list string) :
  (forall first others others',
      ((is_bare_scheme a = false /\ first = a /\ others = l /\ others' = l')
       \/ (is_bare_scheme a = true
           /\ exists x, l = x :: others /\ l' = x :: others' /\ first = a ++ x)) ->
      components (S (length others)) 0
        (map VStr (normalize_scheme first :: others)) []
      = components (S (length others')) 0
          (map VStr (normalize_scheme first :: others')) []) ->
  (is_bare_scheme a = true -> exists x t t', l = x :: t /\ l' = x :: t') ->
  snd (normalize (map VStr (a :: l))) = snd (normalize (map VStr (a :: l'))).
Proof.
  intros Hc Hm.
  cbn [map normalize]. destruct (is_bare_scheme a) eqn:Hb; cbn [andb].
  - destruct (Hm eq_refl) as [x [t [t' [-> ->]]]].
    cbn [map to_string snd length Nat.ltb Nat.leb]. rewrite !length_map.
    specialize (Hc (a ++ x) t t'). cbn [map] in Hc. rewrite Hc; [reflexivity|].
    right. split; [reflexivity | now exists x].
  - cbn [snd length]. rewrite !length_map.
    specialize (Hc a l l'). cbn [map] in Hc. rewrite Hc; [reflexivity|].
    left. auto.
Qed.

(** X5: behind the first segment (behind the second, when the first is
    a bare scheme) a leading slash of a non-empty segment makes no
    difference to the result. *)
Theorem X5_urlJoin_leading_slash_ignored
    (a : string) (l r : list string) (s : string) :
  s <> "" ->
  is_bare_scheme a = false \/ l <> [] ->
  urlJoin_result (map VStr (a :: l ++ String "/" s :: r))
  = urlJoin_result (map VStr (a :: l ++ s :: r)).
Proof.
  intros Hs Hl. rewrite !urlJoin_strings_is_normalize.
  apply normalize_two_lists.
  - intros first others others' [[_ [_ [-> ->]]] | [Hb [x [E [E' _]]]]].
    + rewrite !length_app. cbn [length].
      apply (components_leading_slash (normalize_scheme first :: l) r s);
        [assumption | discriminate].
    + destruct l as [|y l]; [destruct Hl; congruence|].
      cbn [app] in E, E'. injection E as _ <-. injection E' as _ <-.
      rewrite !length_app. cbn [length].
      apply (components_leading_slash (normalize_scheme first :: l) r s);
        [assumption | discriminate].
  - intros Hb. destruct l as [|y l]; [destruct Hl; congruence|].
    cbn [app]. now eexists _, _, _.
Qed.

Lemma X5_urlJoin_leading_slash_ignored_witness :
  urlJoin_result (map VStr ("http://a" :: [] ++ String "/" "b" :: ["c"]))
  = urlJoin_result (map VStr ("http://a" :: [] ++ "b" :: ["c"])).
Proof.
  apply (X5_urlJoin_leading_slash_ignored "http://a" [] ["c"] "b").
  - discriminate.
  - left. reflexivity.
Defined.

(** X6: an empty segment that is neither the first nor the last (nor
    the second behind a bare scheme) is skipped: the result is that of
    the call without it. *)
Theorem X6_urlJoin_empty_segment_elided
    (a b : string) (l r : list string) :
  is_bare_scheme a = false \/ l <> [] ->
  urlJoin_result (map VStr (a :: l ++ "" :: b :: r))
  = urlJoin_result (map VStr (a :: l ++ b :: r)).
Proof.
  intros Hl. rewrite !urlJoin_strings_is_normalize.
  apply normalize_two_lists.
  - intros first others others' [[_ [_ [-> ->]]] | [Hb [x [E [E' _]]]]].
    + rewrite !length_app. cbn [length].
      replace (S (length l + S (S (length r))))
        with (S (0 + length (normalize_scheme first :: l) + length (b :: r)))
        by (cbn [length]; lia).
      replace (S (length l + S (length r)))
        with (0 + length (normalize_scheme first :: l) + length (b :: r))
        by (cbn [length]; lia).
      apply (components_elide (normalize_scheme first :: l) (b :: r));
        [discriminate | discriminate | reflexivity].
    + destruct l as [|y l]; [destruct Hl; congruence|].
      cbn [app] in E, E'. injection E as _ <-. injection E' as _ <-.
      rewrite !length_app. cbn [length].
      replace (S (length l + S (S (length r))))
        with (S (0 + length (normalize_scheme first :: l) + length (b :: r)))
        by (cbn [length]; lia).
      replace (S (length l + S (length r)))
        with (0 + length (normalize_scheme first :: l) + length (b :: r))
        by (cbn [length]; lia).
      apply (components_elide (normalize_scheme first :: l) (b :: r));
        [discriminate | discriminate | reflexivity].
  - intros Hb. destruct l as [|y l]; [destruct Hl; congruence|].
    cbn [app]. now eexists _, _, _.
Qed.

Lemma X6_urlJoin_empty_segment_elided_witness :
  urlJoin_result (map VStr ("http://a" :: [] ++ "" :: "b" :: []))
  = urlJoin_result (map VStr ("http://a" :: [] ++ "b" :: [])).
Proof.
  apply (X6_urlJoin_empty_segment_elided "http://a" "b" [] []).
  left. reflexivity.
Defined.

End Joints.

(* ================================================================== *)
(** * The joiner on an endpoint and a path                             *)
(* ================================================================== *)

Section EndpointAndPath.
Import Js UrlJoin Shapes.

Lemma all_slashes_last (c : ascii) (s : string) :
  is_slash c = true -> all_slashes s = true -> last_is_slash (String c s) = true.
Proof.
  revert c. induction s as [|d s IH]; intros c Hc Hs; [exact Hc|].
  cbn [all_slashes] in Hs. apply andb_true_iff in Hs. destruct Hs as [Hd Hs].
  change (last_is_slash (String c (String d s))) with (last_is_slash (String d s)).
  now apply IH.
Qed.

Lemma last_is_slash_cons (c d : ascii) (s : string) :
  last_is_slash (String c (String d s)) = last_is_slash (String d s).
Proof. reflexivity. Qed.

Lemma replace_trailing_none (r s : string) :
  last_is_slash s = false -> replace_trailing_slashes r s = s.
Proof.
  induction s as [|c s IH]; [reflexivity|]. intros H.
  cbn [replace_trailing_slashes].
  destruct (is_slash c) eqn:Hc; cbn [andb].
  - destruct (all_slashes s) eqn:Ha.
    + rewrite (all_slashes_last c s Hc Ha) in H. discriminate.
    + destruct s as [|d s]; [discriminate|].
      rewrite last_is_slash_cons in H. now rewrite IH.
  - destruct s as [|d s]; [reflexivity|].
    rewrite last_is_slash_cons in H. now rewrite IH.
Qed.

(** The joiner on an endpoint and one path, when nothing needs
    repair: the endpoint, one slash, the path without its leading
    slashes. *)
Lemma urlJoin_endpoint_path (e p : string) :
  e <> "" -> is_bare_scheme e = false -> scheme_normalized e = true ->
  last_is_slash e = false ->
  p <> "" ->
  ends_with_two_slashes (strip_leading_slashes p) = false ->
  slash_before_delim (e ++ "/" ++ strip_leading_slashes p) = false ->
  count_char "?" (e ++ "/" ++ strip_leading_slashes p) <= 1 ->
  urlJoin_result [VStr e; VStr p]
  = Returned (e ++ "/" ++ strip_leading_slashes p).
Proof.
  intros He Hb Hs Hl Hp Ht Hd Hq.
  unfold urlJoin_result, urlJoin. cbn [typeof snd normalize].
  rewrite Hb. cbn [andb snd length components].
  rewrite (normalize_scheme_fixed e Hs).
  apply String.eqb_neq in He. apply String.eqb_neq in Hp. rewrite He, Hp.
  cbn [Nat.ltb Nat.leb Nat.sub app].
  rewrite (replace_trailing_none "" e Hl), (replace_trailing_fixed _ Ht).
  cbn [join]. rewrite (strip_fixed _ Hd), (merge_query_fixed _ Hq).
  reflexivity.
Qed.

(** X7: for an endpoint that is not empty, is more than a bare scheme,
    has a normalized scheme separator and no slash at its end, and a
    non-empty path, when the endpoint, a slash and the path without its
    leading slashes make a string with at most one [?], no slash
    directly before [?], [&] or [#x], and no two slashes at its end,
    the joiner returns exactly that string. *)
Theorem X7_urlJoin_endpoint_path (e p : string) :
  e <> "" -> is_bare_scheme e = false -> scheme_normalized e = true ->
  last_is_slash e = false ->
  p <> "" ->
  ends_with_two_slashes (strip_leading_slashes p) = false ->
  slash_before_delim (e ++ "/" ++ strip_leading_slashes p) = false ->
  count_char "?" (e ++ "/" ++ strip_leading_slashes p) <= 1 ->
  urlJoin_result [VStr e; VStr p]
  = Returned (e ++ "/" ++ strip_leading_slashes p).
Proof. apply urlJoin_endpoint_path. Qed.

Lemma X7_urlJoin_endpoint_path_witness :
  urlJoin_result [VStr "https://api.deno.com/v1"; VStr "//projects/p1/deployments?order=desc"]
  = Returned "https://api.deno.com/v1/projects/p1/deployments?order=desc".
Proof.
  apply (X7_urlJoin_endpoint_path "https://api.deno.com/v1"
           "//projects/p1/deployments?order=desc").
  - discriminate.
  - reflexivity.
  - reflexivity.
  - reflexivity.
  - discriminate.
  - reflexivity.
  - reflexivity.
  - vm_compute. lia.
Defined.

(** *** The scheme separator after lines 31-35 *)

Lemma scheme_span_scheme (s p r x : string) :
  scheme_span s = (p, r) -> scheme_span (p ++ String ":" x) = (p, String ":" x).
Proof.
  revert p r. induction s as [|c s IH]; intros p r; cbn [scheme_span].
  - intros [= <- <-]. reflexivity.
  - destruct (is_slash c || is_colon c) eqn:Hc.
    + intros [= <- <-]. reflexivity.
    + destruct (scheme_span s) as [p' r']. intros [= <- <-].
      cbn [append scheme_span]. rewrite Hc, (IH p' r' eq_refl). reflexivity.
Qed.

Lemma leading_slashes_stripped (r : string) :
  leading_slashes (strip_leading_slashes r) = 0.
Proof.
  induction r as [|c r IH]; [reflexivity|].
  cbn [strip_leading_slashes]. destruct (is_slash c) eqn:Hc; [exact IH|].
  cbn [leading_slashes]. now rewrite Hc.
Qed.

Lemma starts_with_app (pre s : string) :
  starts_with pre s = true -> exists y, s = pre ++ y.
Proof.
  revert s. induction pre as [|a pre IH]; intros s; [now exists s|].
  destruct s as [|b s]; cbn [starts_with]; [discriminate|].
  intros H. apply andb_true_iff in H. destruct H as [Hab H].
  apply Ascii.eqb_eq in Hab. subst b.
  destruct (IH s H) as [y ->]. now exists y.
Qed.

Lemma starts_with_self (pre y : string) : starts_with pre (pre ++ y) = true.
Proof.
  induction pre as [|a pre IH]; [reflexivity|].
  cbn [append starts_with]. now rewrite Ascii.eqb_refl, IH.
Qed.

Lemma scheme_span_file (y : string) :
  scheme_span ("file:///" ++ y) = ("file", ":///" ++ y).
Proof. reflexivity. Qed.

Lemma replace_scheme_file (y : string) :
  replace_scheme ":///" ("file:///" ++ y) = "file:///" ++ strip_leading_slashes y.
Proof. reflexivity. Qed.

Lemma scheme_normalized_file (z : string) :
  scheme_normalized ("file:///" ++ z) = (leading_slashes z =? 0)%nat.
Proof. reflexivity. Qed.

Lemma normalize_scheme_normalized (s : string) :
  scheme_normalized (normalize_scheme s) = true.
Proof.
  unfold normalize_scheme.
  destruct (starts_with "file:///" s) eqn:Hf.
  - destruct (starts_with_app _ _ Hf) as [y ->].
    rewrite replace_scheme_file, scheme_normalized_file.
    now rewrite leading_slashes_stripped.
  - unfold replace_scheme, match_scheme.
    destruct (scheme_span s) as [p r] eqn:E.
    assert (Hnone : scheme_slashes s = None -> scheme_normalized s = true).
    { intros H. unfold scheme_normalized. now rewrite H. }
    unfold scheme_slashes in Hnone. rewrite E in Hnone.
    destruct p as [|c p]; [now apply Hnone|].
    destruct r as [|d r]; [now apply Hnone|].
    destruct (is_colon d) eqn:Hd; [|now apply Hnone].
    apply is_colon_eq in Hd. subst d. clear Hnone.
    unfold scheme_normalized, scheme_slashes.
    change (String c p ++ "://" ++ strip_leading_slashes r)
      with (String c p ++ String ":" ("//" ++ strip_leading_slashes r)).
    rewrite (scheme_span_scheme s (String c p) (String ":" r) _ E).
    change (is_colon ":") with true. cbn iota.
    change (leading_slashes ("//" ++ strip_leading_slashes r))
      with (S (S (leading_slashes (strip_leading_slashes r)))).
    rewrite leading_slashes_stripped.
    clear Hf.
    destruct (starts_with "file:///"
                (String c p ++ String ":" ("//" ++ strip_leading_slashes r)))
      eqn:Hf'; [|reflexivity].
    exfalso. destruct (starts_with_app _ _ Hf') as [y Hy].
    assert (Hspan := scheme_span_scheme s (String c p) (String ":" r)
                       ("//" ++ strip_leading_slashes r) E).
    rewrite Hy, scheme_span_file in Hspan.
    injection Hspan as _ _ Hr.
    assert (Hz := leading_slashes_stripped r).
    rewrite <- Hr in Hz. discriminate.
Qed.

(** X8: the rewriting of the scheme separator (lines 31-35) leaves a
    separator of exactly two slashes, three behind [file:] when the
    segment started with [file:///]; doing it again changes nothing. *)
Theorem X8_normalize_scheme_idempotent (s : string) :
  scheme_normalized (normalize_scheme s) = true /\
  normalize_scheme (normalize_scheme s) = normalize_scheme s.
Proof.
  split; [apply normalize_scheme_normalized|].
  apply normalize_scheme_fixed, normalize_scheme_normalized.
Qed.

End EndpointAndPath.

(* ================================================================== *)
(** * More on the API client                                           *)
(* ================================================================== *)

Section HeaderObjects.
Import Js Shapes Subhosting.

Lemma property_set_same (k v : string) (o : list (string * string)) :
  property k (set_property k v o) = Some v.
Proof.
  induction o as [|[k' v'] o IH]; cbn [set_property property].
  - now rewrite String.eqb_refl.
  - destruct (String.eqb k' k) eqn:E; cbn [property]; now rewrite E.
Qed.

Lemma property_set_other (k k1 v : string) (o : list (string * string)) :
  k1 <> k -> property k (set_property k1 v o) = property k o.
Proof.
  intros Hk. induction o as [|[k' v'] o IH]; cbn [set_property property].
  - apply String.eqb_neq in Hk. now rewrite Hk.
  - destruct (String.eqb_spec k' k1) as [->|Hk'].
    + cbn [property]. apply String.eqb_neq in Hk. now rewrite Hk.
    + cbn [property]. now rewrite IH.
Qed.

Lemma property_app (k : string) (a b : list (string * string)) :
  property k (a ++ b)%list
  = match property k a with
    | Some v => Some v
    | None => property k b
    end.
Proof.
  induction a as [|[k' v'] a IH]; cbn [app property]; [reflexivity|].
  now destruct (String.eqb k' k).
Qed.

(** After [Object.assign(target, source)] a key reads as its last
    value in the source, or as in the target when the source lacks it. *)
Lemma property_assign (k : string) (source target : list (string * string)) :
  property k (Object_assign target source)
  = match property k (rev source) with
    | Some v => Some v
    | None => property k target
    end.
Proof.
  unfold Object_assign. revert target.
  induction source as [|[k1 v1] source IH]; intros target;
    cbn [fold_left rev fst snd]; [reflexivity|].
  rewrite IH, property_app. destruct (property k (rev source)); [reflexivity|].
  cbn [property]. destruct (String.eqb_spec k1 k) as [->|Hk].
  - apply property_set_same.
  - now apply property_set_other.
Qed.

Lemma keys_set_property (k v : string) (o : list (string * string)) :
  NoDup (map fst o) -> NoDup (map fst (set_property k v o)).
Proof.
  intros Hn.
  assert (Hk : (In k (map fst o) /\ map fst (set_property k v o) = map fst o)
               \/ (~ In k (map fst o)
                   /\ map fst (set_property k v o) = (map fst o ++ [k])%list)).
  { clear Hn. induction o as [|[k' v'] o IH]; cbn [set_property map fst].
    - right. split; [intros [] | reflexivity].
    - destruct (String.eqb_spec k' k) as [->|Hk'].
      + left. split; [now left | reflexivity].
      + cbn [map fst]. destruct IH as [[Hin ->] | [Hin ->]].
        * left. split; [now right | reflexivity].
        * right. split; [intros [H | H]; [congruence | contradiction]
                        | reflexivity]. }
  destruct Hk as [[_ ->] | [Hin ->]]; [assumption|].
  apply NoDup_rev in Hn. rewrite <- (rev_involutive (map fst o ++ [k])).
  apply NoDup_rev. rewrite rev_app_distr. cbn [rev app].
  constructor; [|assumption]. now rewrite <- in_rev.
Qed.

Lemma keys_assign (source target : list (string * string)) :
  NoDup (map fst target) -> NoDup (map fst (Object_assign target source)).
Proof.
  unfold Object_assign. revert target.
  induction source as [|[k v] source IH]; intros target Hn; [exact Hn|].
  cbn [fold_left fst snd]. apply IH. now apply keys_set_property.
Qed.

End HeaderObjects.

Section ClientMore.
Import Js UrlJoin Shapes Subhosting.

(** What a call of [fetch] comes to, once the joiner has returned. *)
Lemma fetch_run (self : Client) (e url u : string) (options : option RequestInit)
    (w : world) :
  endpoint (clientOptions self) = Some e ->
  urlJoin_result [VStr e; VStr url] = Returned u ->
  let r := {| req_url := u;
              req_init :=
                {| method := match options with Some o => method o | None => None end;
                   headers :=
                     Some (HeadersObject
                             (Object_assign (Server.default_headers self)
                                (caller_headers options)));
                   body := match options with Some o => body o | None => None end |} |} in
  fetch self url options w = (after_request w r, network w r).
Proof.
  intros He Hu. unfold fetch, bind, lift. rewrite He. cbn [optional_value].
  rewrite Hu. unfold global_fetch, after_request, caller_headers,
    Server.default_headers.
  destruct options as [[m [[h|h]|] b]|]; reflexivity.
Qed.

Lemma urlJoin_two_strings (e url : string) :
  exists u, urlJoin_result [VStr e; VStr url] = Returned u.
Proof.
  destruct (urlJoin_strings_return [e; url]) as [[u Hu] _]. now exists u.
Qed.

(** X9: with an endpoint set, [fetch] does not throw on its own: it
    sends exactly one request, to the join of the endpoint and the
    given path, with the caller's method and body, and completes as the
    network does, a rejection being passed on to the caller. *)
Theorem X9_fetch_one_request (self : Client) (e url : string)
    (options : option RequestInit) (w : world) :
  endpoint (clientOptions self) = Some e ->
  exists r,
    fetch self url options w = (after_request w r, network w r) /\
    urlJoin_result [VStr e; VStr url] = Returned (req_url r) /\
    method (req_init r) = match options with Some o => method o | None => None end /\
    body (req_init r) = match options with Some o => body o | None => None end.
Proof.
  intros He. destruct (urlJoin_two_strings e url) as [u Hu].
  eexists. split; [apply (fetch_run self e url u options w He Hu)|].
  cbn [req_url req_init method body]. auto.
Qed.

Lemma X9_fetch_one_request_witness :
  exists r,
    fetch sample_client "/projects" None answering_world
    = (after_request answering_world r, network answering_world r) /\
    urlJoin_result [VStr default_endpoint; VStr "/projects"] = Returned (req_url r) /\
    method (req_init r) = None /\ body (req_init r) = None.
Proof.
  apply (X9_fetch_one_request sample_client default_endpoint "/projects" None
           answering_world).
  reflexivity.
Defined.

(** X10: the headers of the request [fetch] sends are a plain object
    with distinct keys.  When the caller gives the headers as a plain
    object, each of its keys reads as the caller's value, so that
    [Authorization] and [Content-Type] can be overridden, and any other
    key reads as in the defaults.  When the caller gives a [Headers]
    instance, or no headers, the request carries the two defaults and
    nothing else: the entries of an instance are lost. *)
Theorem X10_fetch_headers (self : Client) (e url : string)
    (options : option RequestInit) (w : world) :
  endpoint (clientOptions self) = Some e ->
  exists r hs,
    sent (fst (fetch self url options w)) = (sent w ++ [r])%list /\
    headers (req_init r) = Some (HeadersObject hs) /\
    NoDup (map fst hs) /\
    match options with
    | Some {| headers := Some (HeadersObject o) |} =>
        (forall k v, property k (rev o) = Some v -> property k hs = Some v) /\
        (forall k, property k (rev o) = None ->
                   property k hs
                   = property k [("Authorization", "Bearer " ++ accessToken self);
                                 ("Content-Type", "application/json")])
    | Some {| headers := Some (HeadersInstance _) |} =>
        hs = [("Authorization", "Bearer " ++ accessToken self);
              ("Content-Type", "application/json")]
    | Some {| headers := None |} =>
        hs = [("Authorization", "Bearer " ++ accessToken self);
              ("Content-Type", "application/json")]
    | None =>
        hs = [("Authorization", "Bearer " ++ accessToken self);
              ("Content-Type", "application/json")]
    end.
Proof.
  intros He. destruct (urlJoin_two_strings e url) as [u Hu].
  rewrite (fetch_run self e url u options w He Hu).
  eexists; eexists. split; [reflexivity|]. split; [reflexivity|].
  split.
  - apply keys_assign. unfold Server.default_headers. cbn [map fst].
    repeat constructor; cbn [In]; intuition discriminate.
  - destruct options as [[m [[o|entries]|] b]|]; try reflexivity.
    cbn [caller_headers headers]. split.
    + intros k v H. now rewrite property_assign, H.
    + intros k H. now rewrite property_assign, H.
Qed.

Lemma X10_fetch_headers_witness :
  exists r hs,
    sent (fst (fetch sample_client "/projects"
                 (Some {| method := Some "GET";
                          headers :=
                            Some (HeadersInstance [("Authorization", "Bearer other")]);
                          body := None |}) answering_world))
    = ([] ++ [r])%list /\
    headers (req_init r) = Some (HeadersObject hs) /\
    NoDup (map fst hs) /\
    hs = [("Authorization", "Bearer " ++ "token");
          ("Content-Type", "application/json")].
Proof.
  apply (X10_fetch_headers sample_client default_endpoint "/projects"
           (Some {| method := Some "GET";
                    headers :=
                      Some (HeadersInstance [("Authorization", "Bearer other")]);
                    body := None |}) answering_world).
  reflexivity.
Defined.

End ClientMore.

(* ================================================================== *)
(** * The URLs of the client's methods                                 *)
(* ================================================================== *)

Section ShapeFacts.
Import Js UrlJoin Shapes.

Lemma keep_char (c : ascii) :
  urlencoded_keep c = true ->
  is_slash c = false /\ is_colon c = false /\ Ascii.eqb c "?" = false
  /\ is_delim c = false.
Proof.
  destruct c as [[] [] [] [] [] [] [] []]; vm_compute; intros H;
    try discriminate; repeat split.
Qed.

Lemma escape_plain (c : ascii) :
  plain (String "%" (String (hex_digit (nat_of_ascii c / 16))
                       (String (hex_digit (nat_of_ascii c mod 16)) ""))) = true.
Proof. destruct c as [[] [] [] [] [] [] [] []]; vm_compute; reflexivity. Qed.

Lemma plain_app (a b : string) : plain (a ++ b) = plain a && plain b.
Proof.
  induction a as [|c a IH]; [reflexivity|]. cbn [append plain].
  now rewrite IH, andb_assoc.
Qed.

Lemma urlencode_plain (s : string) : plain (urlencode s) = true.
Proof.
  induction s as [|c s IH]; [reflexivity|]. cbn [urlencode].
  destruct (urlencoded_keep c) eqn:Hk.
  - destruct (keep_char c Hk) as [Hs [Hc [Hq _]]].
    cbn [plain]. now rewrite Hs, Hc, Hq, IH.
  - destruct (Ascii.eqb c " "); [exact IH|].
    change (String "%" (String ?x (String ?y ?z)))
      with (String "%" (String x (String y "")) ++ z).
    now rewrite plain_app, escape_plain, IH.
Qed.

Lemma join_plain (sep : string) (l : list string) :
  plain sep = true -> Forall (fun x => plain x = true) l ->
  plain (join sep l) = true.
Proof.
  intros Hsep. induction 1 as [|x l Hx Hl IH]; [reflexivity|].
  cbn [join]. destruct l as [|y l]; [exact Hx|].
  now rewrite !plain_app, Hx, Hsep, IH.
Qed.

(** A serialized query has no slash, colon or question mark. *)
Lemma query_plain (q : query) : plain (URLSearchParams_toString q) = true.
Proof.
  destruct q as [pairs|]; [|reflexivity]. cbn [URLSearchParams_toString].
  apply join_plain; [reflexivity|].
  apply Forall_map, Forall_forall. intros [k v] _. cbn [fst snd].
  now rewrite !plain_app, !urlencode_plain.
Qed.

Lemma safe_char_facts (s : string) :
  safe s = true -> plain s = true /\ no_delim s = true.
Proof.
  induction s as [|c s IH]; [now split|]. cbn [safe]. intros H.
  apply andb_true_iff in H. destruct H as [Hk Hs].
  destruct (keep_char c Hk) as [H1 [H2 [H3 H4]]]. destruct (IH Hs) as [Hp Hd].
  cbn [plain no_delim]. now rewrite H1, H2, H3, H4, Hp, Hd.
Qed.

Lemma no_delim_app (a b : string) :
  no_delim (a ++ b) = no_delim a && no_delim b.
Proof.
  induction a as [|c a IH]; [reflexivity|]. cbn [append no_delim].
  now rewrite IH, andb_assoc.
Qed.

Lemma last_is_slash_app (a b : string) :
  b <> "" -> last_is_slash (a ++ b) = last_is_slash b.
Proof.
  intros Hb. induction a as [|c a IH]; [reflexivity|].
  cbn [append]. destruct (a ++ b) as [|d s] eqn:E.
  - apply append_eq_nil in E. tauto.
  - rewrite last_is_slash_cons. exact IH.
Qed.

Lemma count_char_app (c : ascii) (a b : string) :
  count_char c (a ++ b) = count_char c a + count_char c b.
Proof.
  induction a as [|d a IH]; [reflexivity|]. cbn [append count_char].
  rewrite IH. lia.
Qed.

Lemma count_no_delim (s : string) : no_delim s = true -> count_char "?" s = 0.
Proof.
  induction s as [|c s IH]; [reflexivity|]. cbn [no_delim count_char].
  intros H. apply andb_true_iff in H. destruct H as [Hc Hs].
  unfold is_delim in Hc. destruct (Ascii.eqb c "?"); [discriminate|].
  now rewrite IH.
Qed.

Lemma count_plain (s : string) : plain s = true -> count_char "?" s = 0.
Proof.
  induction s as [|c s IH]; [reflexivity|]. intros H.
  destruct (plain_cons c s H) as [_ [_ [Hq Hs]]].
  cbn [count_char]. now rewrite Hq, IH.
Qed.

Lemma slash_before_delim_plain (s : string) :
  plain s = true -> slash_before_delim s = false.
Proof.
  induction s as [|c s IH]; [reflexivity|]. intros H.
  destruct (plain_cons c s H) as [Hs [_ [_ Hp]]].
  cbn [slash_before_delim]. now rewrite Hs, IH.
Qed.

Lemma delim_follows_no_delim (s : string) :
  no_delim s = true -> delim_follows s = false.
Proof.
  destruct s as [|d s]; [reflexivity|]. cbn [no_delim delim_follows].
  intros H. apply andb_true_iff in H. destruct H as [Hd _].
  unfold is_delim in Hd.
  destruct (Ascii.eqb d "?"), (Ascii.eqb d "&"), (Ascii.eqb d "#");
    try discriminate; reflexivity.
Qed.

Lemma slash_before_delim_none (s : string) :
  no_delim s = true -> slash_before_delim s = false.
Proof.
  induction s as [|c s IH]; [reflexivity|]. cbn [no_delim slash_before_delim].
  intros H. apply andb_true_iff in H. destruct H as [_ Hs].
  now rewrite (delim_follows_no_delim s Hs), andb_false_r, IH.
Qed.

(** A path without [?], [&] and [#] that does not end in a slash,
    followed by [?] and a query without slashes, has no slash to drop. *)
Lemma slash_before_delim_path_query (a q : string) :
  no_delim a = true -> last_is_slash a = false -> plain q = true ->
  slash_before_delim (a ++ "?" ++ q) = false.
Proof.
  intros Ha Hl Hq. induction a as [|c a IH].
  - cbn [append slash_before_delim]. change (is_slash "?") with false.
    now apply slash_before_delim_plain.
  - cbn [no_delim] in Ha. apply andb_true_iff in Ha. destruct Ha as [Hc Ha].
    change (slash_before_delim (String c a ++ "?" ++ q))
      with ((is_slash c && delim_follows (a ++ "?" ++ q))
            || slash_before_delim (a ++ "?" ++ q)).
    destruct a as [|d a].
    + cbn [last_is_slash] in Hl. rewrite Hl. cbn [andb orb].
      now apply IH.
    + rewrite last_is_slash_cons in Hl. rewrite (IH Ha Hl), orb_false_r.
      cbn [append delim_follows].
      cbn [no_delim] in Ha. apply andb_true_iff in Ha. destruct Ha as [Hd _].
      unfold is_delim in Hd.
      destruct (Ascii.eqb d "?"), (Ascii.eqb d "&"), (Ascii.eqb d "#");
        try discriminate; apply andb_false_r.
Qed.

Lemma two_slashes_none (s : string) :
  last_is_slash s = false -> ends_with_two_slashes s = false.
Proof.
  induction s as [|c s IH]; [reflexivity|]. intros H.
  cbn [ends_with_two_slashes]. destruct s as [|d s].
  - now rewrite andb_false_r.
  - rewrite last_is_slash_cons in H. rewrite (IH H), orb_false_r.
    destruct (String.eqb_spec (String d s) "/") as [E|]; [|apply andb_false_r].
    rewrite E in H. discriminate.
Qed.

Lemma last_is_slash_plain (s : string) : plain s = true -> last_is_slash s = false.
Proof.
  induction s as [|c s IH]; [reflexivity|]. intros H.
  destruct (plain_cons c s H) as [Hs [_ [_ Hp]]].
  destruct s as [|d s]; [exact Hs|]. rewrite last_is_slash_cons. now apply IH.
Qed.

Lemma leading_slashes_app (a b : string) :
  a <> "" -> leading_slashes a = 0 -> leading_slashes (a ++ b) = 0.
Proof.
  destruct a as [|c a]; [congruence|]. intros _.
  cbn [append leading_slashes]. now destruct (is_slash c).
Qed.

Lemma clean_endpoint_facts (e : string) :
  clean_endpoint e = true ->
  e <> "" /\ is_bare_scheme e = false /\ scheme_normalized e = true
  /\ last_is_slash e = false /\ no_delim e = true.
Proof.
  unfold clean_endpoint. intros H.
  repeat (apply andb_true_iff in H; destruct H as [H ?]).
  repeat split; try assumption.
  - apply negb_true_iff in H. now apply String.eqb_neq.
  - now apply negb_true_iff.
  - now apply negb_true_iff.
Qed.

(** The joiner on a clean endpoint and an API path, with and without
    a query. *)
Lemma urlJoin_api_path (e a : string) :
  clean_endpoint e = true ->
  a <> "" -> leading_slashes a = 0 -> no_delim a = true ->
  last_is_slash a = false ->
  urlJoin_result [VStr e; VStr ("/" ++ a)] = Returned (e ++ "/" ++ a).
Proof.
  intros He Ha Hl Hd Ht.
  destruct (clean_endpoint_facts e He) as [H1 [H2 [H3 [H4 H5]]]].
  assert (Hs : strip_leading_slashes ("/" ++ a) = a).
  { cbn [append strip_leading_slashes]. change (is_slash "/") with true.
    cbn iota. now apply leading_slashes_zero. }
  rewrite <- Hs at 2.
  apply urlJoin_endpoint_path; try assumption; try discriminate; rewrite Hs.
  - now apply two_slashes_none.
  - apply slash_before_delim_none.
    rewrite !no_delim_app, H5, Hd. reflexivity.
  - rewrite !count_char_app, (count_no_delim e H5), (count_no_delim a Hd).
    cbn. lia.
Qed.

Lemma urlJoin_api_path_query (e a q : string) :
  clean_endpoint e = true ->
  a <> "" -> leading_slashes a = 0 -> no_delim a = true ->
  last_is_slash a = false -> plain q = true ->
  urlJoin_result [VStr e; VStr ("/" ++ a ++ "?" ++ q)]
  = Returned (e ++ "/" ++ a ++ "?" ++ q).
Proof.
  intros He Ha Hl Hd Ht Hq.
  destruct (clean_endpoint_facts e He) as [H1 [H2 [H3 [H4 H5]]]].
  assert (Hs : strip_leading_slashes ("/" ++ a ++ "?" ++ q) = a ++ "?" ++ q).
  { cbn [append strip_leading_slashes]. change (is_slash "/") with true.
    cbn iota. apply leading_slashes_zero. now apply leading_slashes_app. }
  rewrite <- Hs at 2.
  assert (Hpq : plain ("?" ++ q) = false) by reflexivity.
  apply urlJoin_endpoint_path; try assumption; try discriminate; rewrite Hs.
  - apply two_slashes_none. rewrite last_is_slash_app by discriminate.
    cbn [append]. destruct q as [|c q]; [reflexivity|].
    rewrite last_is_slash_cons. now apply last_is_slash_plain.
  - replace (e ++ "/" ++ a ++ "?" ++ q) with ((e ++ "/" ++ a) ++ "?" ++ q)
      by now rewrite !append_assoc.
    apply slash_before_delim_path_query; try assumption.
    + rewrite !no_delim_app, H5, Hd. reflexivity.
    + rewrite last_is_slash_app by (intros E; apply append_eq_nil in E;
                                    destruct E; discriminate).
      rewrite last_is_slash_app by assumption. assumption.
  - rewrite !count_char_app, (count_no_delim e H5), (count_no_delim a Hd),
      (count_plain q Hq). cbn. lia.
Qed.

End ShapeFacts.

Section MethodUrls.
Import Js UrlJoin Shapes Subhosting Posts.

Ltac same_text := rewrite ?append_assoc; cbn [append]; reflexivity.

Lemma api_get (self : Client) (e path a q : string) (w : world) :
  endpoint (clientOptions self) = Some e -> clean_endpoint e = true ->
  a <> "" -> leading_slashes a = 0 -> no_delim a = true ->
  last_is_slash a = false -> plain q = true ->
  path = "/" ++ a ++ "?" ++ q ->
  fetch self path (Some get_init) w
  = (after_request w (get_request self (e ++ path)),
     network w (get_request self (e ++ path))).
Proof.
  intros He Hc Ha Hl Hd Ht Hq ->.
  apply (fetch_run self e _ _ (Some get_init) w He).
  now apply urlJoin_api_path_query.
Qed.

Lemma api_post (self : Client) (e path a b : string) (w : world) :
  endpoint (clientOptions self) = Some e -> clean_endpoint e = true ->
  a <> "" -> leading_slashes a = 0 -> no_delim a = true ->
  last_is_slash a = false ->
  path = "/" ++ a ->
  fetch self path (Some (post_init b)) w
  = (after_request w (post_request self (e ++ path) b),
     network w (post_request self (e ++ path) b)).
Proof.
  intros He Hc Ha Hl Hd Ht ->.
  apply (fetch_run self e _ _ (Some (post_init b)) w He).
  now apply urlJoin_api_path.
Qed.

Lemma path_shape (pre id post : string) :
  pre <> "" -> leading_slashes pre = 0 -> no_delim pre = true ->
  safe id = true ->
  post <> "" -> no_delim post = true -> last_is_slash post = false ->
  pre ++ id ++ post <> "" /\ leading_slashes (pre ++ id ++ post) = 0
  /\ no_delim (pre ++ id ++ post) = true
  /\ last_is_slash (pre ++ id ++ post) = false.
Proof.
  intros Hp Hl Hd Hs Hq Hqd Hql.
  destruct (safe_char_facts id Hs) as [_ Hid].
  repeat split.
  - intros E. apply append_eq_nil in E. tauto.
  - now apply leading_slashes_app.
  - now rewrite !no_delim_app, Hd, Hid, Hqd.
  - rewrite last_is_slash_app.
    + now rewrite last_is_slash_app.
    + intros E. apply append_eq_nil in E. tauto.
Qed.

(** X11: on a clean endpoint and with an organisation id made of
    letters, digits, [*], [-], [.] and [_], [listProjects] sends one GET
    to [<endpoint>/organizations/<org>/projects?<query>], the query
    serialized as a form; without a query the URL ends in the bare [?]. *)
Theorem X11_listProjects_url (self : Client) (e : string) (q : query) (w : world) :
  endpoint (clientOptions self) = Some e -> clean_endpoint e = true ->
  safe (orgId self) = true ->
  let r := get_request self
             (e ++ "/organizations/" ++ orgId self ++ "/projects?"
                ++ URLSearchParams_toString q) in
  listProjects self q w = (after_request w r, network w r).
Proof.
  intros He Hc Hs.
  destruct (path_shape "organizations/" (orgId self) "/projects")
    as [H1 [H2 [H3 H4]]]; try reflexivity; try discriminate; try assumption.
  cbv zeta. unfold listProjects, orgUrl.
  rewrite (api_get self e _ ("organizations/" ++ orgId self ++ "/projects")
             (URLSearchParams_toString q) w He Hc H1 H2 H3 H4 (query_plain q))
    by same_text.
  rewrite append_assoc. reflexivity.
Qed.

Lemma X11_listProjects_url_witness :
  listProjects sample_client None answering_world
  = (after_request answering_world
       (get_request sample_client
          ("https://api.deno.com/v1" ++ "/organizations/" ++ "org" ++ "/projects?" ++ "")),
     network answering_world
       (get_request sample_client
          ("https://api.deno.com/v1" ++ "/organizations/" ++ "org" ++ "/projects?" ++ ""))).
Proof.
  apply (X11_listProjects_url sample_client default_endpoint None answering_world);
    reflexivity.
Defined.

(** X12: on a clean endpoint and with such a project id,
    [listDeployments] sends one GET to
    [<endpoint>/projects/<id>/deployments?<query>]. *)
Theorem X12_listDeployments_url (self : Client) (e projectId : string)
    (q : query) (w : world) :
  endpoint (clientOptions self) = Some e -> clean_endpoint e = true ->
  safe projectId = true ->
  let r := get_request self
             (e ++ "/projects/" ++ projectId ++ "/deployments?"
                ++ URLSearchParams_toString q) in
  listDeployments self projectId q w = (after_request w r, network w r).
Proof.
  intros He Hc Hs.
  destruct (path_shape "projects/" projectId "/deployments")
    as [H1 [H2 [H3 H4]]]; try reflexivity; try discriminate; try assumption.
  cbv zeta. unfold listDeployments.
  rewrite (api_get self e _ ("projects/" ++ projectId ++ "/deployments")
             (URLSearchParams_toString q) w He Hc H1 H2 H3 H4 (query_plain q))
    by same_text.
  reflexivity.
Qed.

Lemma X12_listDeployments_url_witness :
  listDeployments sample_client "p1" (Some [("order", "desc")]) answering_world
  = (after_request answering_world
       (get_request sample_client
          ("https://api.deno.com/v1" ++ "/projects/" ++ "p1" ++ "/deployments?"
             ++ URLSearchParams_toString (Some [("order", "desc")]))),
     network answering_world
       (get_request sample_client
          ("https://api.deno.com/v1" ++ "/projects/" ++ "p1" ++ "/deployments?"
             ++ URLSearchParams_toString (Some [("order", "desc")])))).
Proof.
  apply (X12_listDeployments_url sample_client default_endpoint "p1"
           (Some [("order", "desc")]) answering_world); reflexivity.
Defined.

(** X13: on a clean endpoint and with such a deployment id,
    [listAppLogs] sends one GET to
    [<endpoint>/deployments/<id>/app_logs?<query>]. *)
Theorem X13_listAppLogs_url (self : Client) (e deploymentId : string)
    (q : query) (w : world) :
  endpoint (clientOptions self) = Some e -> clean_endpoint e = true ->
  safe deploymentId = true ->
  let r := get_request self
             (e ++ "/deployments/" ++ deploymentId ++ "/app_logs?"
                ++ URLSearchParams_toString q) in
  listAppLogs self deploymentId q w = (after_request w r, network w r).
Proof.
  intros He Hc Hs.
  destruct (path_shape "deployments/" deploymentId "/app_logs")
    as [H1 [H2 [H3 H4]]]; try reflexivity; try discriminate; try assumption.
  cbv zeta. unfold listAppLogs.
  rewrite (api_get self e _ ("deployments/" ++ deploymentId ++ "/app_logs")
             (URLSearchParams_toString q) w He Hc H1 H2 H3 H4 (query_plain q))
    by same_text.
  reflexivity.
Qed.

Lemma X13_listAppLogs_url_witness :
  listAppLogs sample_client "d1" (Some [("q", "a b")]) answering_world
  = (after_request answering_world
       (get_request sample_client
          ("https://api.deno.com/v1" ++ "/deployments/" ++ "d1" ++ "/app_logs?"
             ++ URLSearchParams_toString (Some [("q", "a b")]))),
     network answering_world
       (get_request sample_client
          ("https://api.deno.com/v1" ++ "/deployments/" ++ "d1" ++ "/app_logs?"
             ++ URLSearchParams_toString (Some [("q", "a b")])))).
Proof.
  apply (X13_listAppLogs_url sample_client default_endpoint "d1"
           (Some [("q", "a b")]) answering_world); reflexivity.
Defined.

Section WithStringify.
Variable JSON_stringify : json -> string.

(** X14: on a clean endpoint and with such an organisation id,
    [createProject] sends one POST to
    [<endpoint>/organizations/<org>/projects] whose body is the
    serialized object with the one property [name], undefined when no
    name was given. *)
Theorem X14_createProject_request (self : Client) (e : string)
    (name : option string) (w : world) :
  endpoint (clientOptions self) = Some e -> clean_endpoint e = true ->
  safe (orgId self) = true ->
  let r := post_request self
             (e ++ "/organizations/" ++ orgId self ++ "/projects")
             (JSON_stringify (JObject [("name", JValue (optional_value name))])) in
  createProject JSON_stringify self name w = (after_request w r, network w r).
Proof.
  intros He Hc Hs.
  destruct (path_shape "organizations/" (orgId self) "/projects")
    as [H1 [H2 [H3 H4]]]; try reflexivity; try discriminate; try assumption.
  cbv zeta. unfold createProject, orgUrl.
  rewrite (api_post self e _ ("organizations/" ++ orgId self ++ "/projects")
             _ w He Hc H1 H2 H3 H4) by same_text.
  rewrite append_assoc. reflexivity.
Qed.

Lemma createDeployment_clean (self : Client) (e projectId : string)
    (deploymentOptions : json) (w : world) :
  endpoint (clientOptions self) = Some e -> clean_endpoint e = true ->
  safe projectId = true ->
  createDeployment JSON_stringify self projectId deploymentOptions w
  = (after_request w
       (post_request self (e ++ "/projects/" ++ projectId ++ "/deployments")
          (JSON_stringify deploymentOptions)),
     network w
       (post_request self (e ++ "/projects/" ++ projectId ++ "/deployments")
          (JSON_stringify deploymentOptions))).
Proof.
  intros He Hc Hs.
  destruct (path_shape "projects/" projectId "/deployments")
    as [H1 [H2 [H3 H4]]]; try reflexivity; try discriminate; try assumption.
  unfold createDeployment.
  rewrite (api_post self e _ ("projects/" ++ projectId ++ "/deployments")
             _ w He Hc H1 H2 H3 H4) by same_text.
  reflexivity.
Qed.

(** X15: on a clean endpoint and with such a project id,
    [createDeployment] sends one POST to
    [<endpoint>/projects/<id>/deployments] whose body is the serialized
    options. *)
Theorem X15_createDeployment_request (self : Client) (e projectId : string)
    (deploymentOptions : json) (w : world) :
  endpoint (clientOptions self) = Some e -> clean_endpoint e = true ->
  safe projectId = true ->
  let r := post_request self (e ++ "/projects/" ++ projectId ++ "/deployments")
             (JSON_stringify deploymentOptions) in
  createDeployment JSON_stringify self projectId deploymentOptions w
  = (after_request w r, network w r).
Proof.
  intros He Hc Hs.
  destruct (path_shape "projects/" projectId "/deployments")
    as [H1 [H2 [H3 H4]]]; try reflexivity; try discriminate; try assumption.
  cbv zeta. unfold createDeployment.
  rewrite (api_post self e _ ("projects/" ++ projectId ++ "/deployments")
             _ w He Hc H1 H2 H3 H4) by same_text.
  reflexivity.
Qed.

End WithStringify.

Lemma X14_createProject_request_witness :
  createProject (fun _ => "{}") sample_client None answering_world
  = (after_request answering_world
       (post_request sample_client
          ("https://api.deno.com/v1" ++ "/organizations/" ++ "org" ++ "/projects") "{}"),
     network answering_world
       (post_request sample_client
          ("https://api.deno.com/v1" ++ "/organizations/" ++ "org" ++ "/projects") "{}")).
Proof.
  apply (X14_createProject_request (fun _ => "{}") sample_client default_endpoint
           None answering_world); reflexivity.
Defined.

Lemma X15_createDeployment_request_witness :
  createDeployment (fun _ => "{}") sample_client "p1" (JObject []) answering_world
  = (after_request answering_world
       (post_request sample_client
          ("https://api.deno.com/v1" ++ "/projects/" ++ "p1" ++ "/deployments") "{}"),
     network answering_world
       (post_request sample_client
          ("https://api.deno.com/v1" ++ "/projects/" ++ "p1" ++ "/deployments") "{}")).
Proof.
  apply (X15_createDeployment_request (fun _ => "{}") sample_client
           default_endpoint "p1" (JObject []) answering_world); reflexivity.
Defined.

(** X16: whatever the project id, and with any endpoint, a non-empty
    serialized query arrives unchanged at the end of the URL
    [listDeployments] requests. *)
Theorem X16_listDeployments_query_kept (self : Client) (e projectId : string)
    (q : query) (w : world) :
  endpoint (clientOptions self) = Some e ->
  URLSearchParams_toString q <> "" ->
  exists url,
    listDeployments self projectId q w
    = (after_request w (get_request self url), network w (get_request self url))
    /\ ends_with (URLSearchParams_toString q) url.
Proof.
  intros He Hq.
  destruct (urlJoin_two_suffix (URLSearchParams_toString q) (query_plain q) Hq e
              ("/projects/" ++ projectId ++ "/deployments?")) as [url [Hu Hend]].
  exists url. split; [|exact Hend].
  unfold listDeployments.
  apply (fetch_run self e _ url (Some get_init) w He).
  rewrite <- Hu. f_equal. f_equal. f_equal. same_text.
Qed.

Lemma X16_listDeployments_query_kept_witness :
  exists url,
    listDeployments sample_client "a?b#c" (Some [("order", "desc")]) answering_world
    = (after_request answering_world (get_request sample_client url),
       network answering_world (get_request sample_client url))
    /\ ends_with (URLSearchParams_toString (Some [("order", "desc")])) url.
Proof.
  apply (X16_listDeployments_query_kept sample_client default_endpoint "a?b#c"
           (Some [("order", "desc")]) answering_world).
  - reflexivity.
  - discriminate.
Defined.

End MethodUrls.

(* ================================================================== *)
(** * More on the page controller                                      *)
(* ================================================================== *)

Section PageMore.
Import Js App Deploy Posts.

Lemma setDeployments_run (v : option (list Deployment)) (p : page) :
  setDeployments (Deployments v) p
  = ({| deployments_innerHTML := rendered v;
        project_list_value := project_list_value p;
        console := console p;
        network := network p;
        requested := requested p |}, Returned tt).
Proof.
  destruct v as [[|d ds]|]; try reflexivity.
  unfold setDeployments, set_innerHTML.
  replace (length (d :: ds) <? 1)%nat with false by reflexivity.
  rewrite render_lines. reflexivity.
Qed.

(** The page after a poll, case by case. *)
Lemma pollData_run (p : page) :
  pollData p
  = ({| deployments_innerHTML :=
          match network p (poll_url p) with
          | Returned dr => match App.json dr with
                           | Returned (Deployments v) => rendered v
                           | Returned NotAList => deployments_innerHTML p
                           | Threw _ => deployments_innerHTML p
                           end
          | Threw _ => deployments_innerHTML p
          end;
        project_list_value := project_list_value p;
        console :=
          match network p (poll_url p) with
          | Returned dr =>
              match App.json dr with
              | Returned (Deployments _) => console p
              | Returned NotAList =>
                  (console p
                   ++ [TypeError "deployments.forEach is not a function"])%list
              | Threw e => (console p ++ [e])%list
              end
          | Threw e => (console p ++ [e])%list
          end;
        network := network p;
        requested := (requested p ++ [poll_url p])%list |}, Returned tt).
Proof.
  unfold pollData, bind, try_catch, getProjectId, fetch, response_json, lift,
    console_error, poll_url.
  cbn [network].
  destruct (network p ("/deployments?projectId=" ++ project_list_value p))
    as [dr|e]; [|reflexivity].
  destruct (App.json dr) as [[v|]|e]; [|reflexivity|reflexivity].
  rewrite setDeployments_run. reflexivity.
Qed.

(** X17: whatever the server does, [pollData] returns normally; it
    sends exactly one request, to [/deployments?projectId=] followed by
    the selector's value, and leaves the selector alone. *)
Theorem X17_pollData_never_throws (p : page) :
  snd (pollData p) = Returned tt /\
  requested (fst (pollData p))
  = (requested p ++ [poll_url p])%list /\
  poll_url p = "/deployments?projectId=" ++ project_list_value p /\
  project_list_value (fst (pollData p)) = project_list_value p.
Proof. rewrite pollData_run. repeat split. Qed.



(** X19: against a server that answers the same way, a second poll
    leaves the panel as the first one left it. *)
Theorem X19_pollData_twice (p : page) :
  deployments_innerHTML (fst (pollData (fst (pollData p))))
  = deployments_innerHTML (fst (pollData p)).
Proof.
  rewrite (pollData_run (fst (pollData p))).
  rewrite !pollData_run. unfold poll_url.
  cbn [fst deployments_innerHTML network project_list_value].
  destruct (network p ("/deployments?projectId=" ++ project_list_value p))
    as [dr|e]; [|reflexivity].
  destruct (App.json dr) as [[v|]|e]; reflexivity.
Qed.

Section WithStringify.
Variable JSON_stringify : Posts.json -> string.

Lemma saveAndDeploy_run (s : ide) :
  saveAndDeploy JSON_stringify s
  = ({| view :=
          {| deployments_innerHTML := creating ++ deployments_innerHTML (view s);
             project_list_value := project_list_value (view s);
             console := console (view s);
             network := network (view s);
             requested := requested (view s) |};
        editor_value := editor_value s;
        post_network := post_network s;
        posted := (posted s ++ [("/deployment", deploy_body JSON_stringify s)])%list |},
     match post_network s "/deployment" (deploy_body JSON_stringify s) with
     | Returned dr => match post_json dr with
                      | Returned _ => Returned tt
                      | Threw e => Threw e
                      end
     | Threw e => Threw e
     end).
Proof.
  unfold saveAndDeploy, bind, in_view, get_innerHTML, set_innerHTML,
    getProjectId, editor_getValue, post, lift, ret, deploy_body.
  cbn [view editor_value post_network posted project_list_value].
  destruct (post_network s "/deployment" _) as [dr|e]; [|reflexivity].
  destruct (post_json dr); reflexivity.
Qed.

(** X20: [saveAndDeploy] always puts the "Creating deployment..."
    paragraph in front of what the panel shows and sends one POST to
    [/deployment] carrying the selected project and the editor's text;
    it logs nothing and catches nothing: a rejected request or an
    answer that does not parse is thrown to the caller, with the
    paragraph left in the panel. *)
Theorem X20_saveAndDeploy_effects (s : ide) :
  deployments_innerHTML (view (fst (saveAndDeploy JSON_stringify s)))
  = "<p>Creating deployment...</p>" ++ deployments_innerHTML (view s) /\
  posted (fst (saveAndDeploy JSON_stringify s))
  = (posted s
     ++ [("/deployment",
          JSON_stringify
            (JObject [("projectId", JValue (VStr (project_list_value (view s))));
                      ("code", JValue (VStr (editor_value s)))]))])%list /\
  console (view (fst (saveAndDeploy JSON_stringify s))) = console (view s) /\
  requested (view (fst (saveAndDeploy JSON_stringify s))) = requested (view s) /\
  snd (saveAndDeploy JSON_stringify s)
  = match post_network s "/deployment" (deploy_body JSON_stringify s) with
    | Returned dr => match post_json dr with
                     | Returned _ => Returned tt
                     | Threw e => Threw e
                     end
    | Threw e => Threw e
    end.
Proof. rewrite saveAndDeploy_run. repeat split. Qed.

(** X21: the "Creating deployment..." paragraph lasts until the next
    poll that succeeds: after it the panel shows the rendering of the
    answer alone, whether the deploy request had succeeded or not. *)
Theorem X21_poll_after_deploy (s : ide) (dr : response)
    (v : option (list Deployment)) :
  network (view s) (poll_url (view s)) = Returned dr ->
  App.json dr = Returned (Deployments v) ->
  deployments_innerHTML
    (view (fst (in_view pollData (fst (saveAndDeploy JSON_stringify s)))))
  = rendered v.
Proof.
  intros Hn Hj. rewrite saveAndDeploy_run. unfold in_view.
  cbn [fst view]. rewrite pollData_run.
  cbn [fst view deployments_innerHTML network project_list_value].
  unfold poll_url in *. cbn [project_list_value]. now rewrite Hn, Hj.
Qed.

End WithStringify.

Lemma X21_poll_after_deploy_witness :
  deployments_innerHTML
    (view (fst (in_view pollData
                  (fst (saveAndDeploy (fun _ => "{}")
                          {| view :=
                               {| deployments_innerHTML := "";
                                  project_list_value := "p1";
                                  console := [];
                                  network :=
                                    fun _ => Returned {| App.json := Returned (Deployments None) |};
                                  requested := [] |};
                             editor_value := "code";
                             post_network := fun _ _ => Threw (TypeError "Failed to fetch");
                             posted := [] |})))))
  = placeholder.
Proof.
  apply (X21_poll_after_deploy (fun _ => "{}")
           {| view :=
                {| deployments_innerHTML := "";
                   project_list_value := "p1";
                   console := [];
                   network :=
                                    fun _ => Returned {| App.json := Returned (Deployments None) |};
                   requested := [] |};
              editor_value := "code";
              post_network := fun _ _ => Threw (TypeError "Failed to fetch");
              posted := [] |}
           {| App.json := Returned (Deployments None) |} None); reflexivity.
Defined.

End PageMore.

(* ================================================================== *)
(** * More on the routes of the server                                 *)
(* ================================================================== *)

Section RoutesMore.
Import Js UrlJoin Shapes Subhosting Server Posts Routes.

Lemma get_deployments_run (shc : Client) (e u : string) (c : context) (w : world) :
  endpoint (clientOptions shc) = Some e ->
  urlJoin_result [VStr e; VStr (deployments_path c)] = Returned u ->
  get_deployments shc c w
  = (after_request w (get_request shc u),
     match network w (get_request shc u) with
     | Returned dr => Subhosting.json dr
     | Threw err => Threw err
     end).
Proof.
  intros He Hu. unfold get_deployments, listDeployments, bind.
  rewrite order_desc_serialized.
  change ("/projects/" ++ or_empty (lookup "projectId" (req_query c))
          ++ "/deployments?" ++ "order=desc") with (deployments_path c).
  rewrite (fetch_run shc e _ u (Some get_init) w He Hu).
  change {| req_url := u; req_init := _ |} with (get_request shc u).
  destruct (network w (get_request shc u)) as [dr|err]; [|reflexivity].
  unfold response_json, lift, ret. now destruct (Subhosting.json dr).
Qed.

(** X22: the handler of [GET /deployments] catches nothing and
    changes nothing: after its one request it answers with the parsed
    document of the API's answer as it is, and a rejected request or an
    answer that does not parse is thrown on. *)
Theorem X22_get_deployments_outcome (shc : Client) (e : string) (c : context)
    (w : world) :
  endpoint (clientOptions shc) = Some e ->
  exists url,
    urlJoin_result [VStr e; VStr (deployments_path c)] = Returned url /\
    get_deployments shc c w
    = (after_request w (get_request shc url),
       match network w (get_request shc url) with
       | Returned dr => Subhosting.json dr
       | Threw err => Threw err
       end).
Proof.
  intros He. destruct (urlJoin_two_strings e (deployments_path c)) as [u Hu].
  exists u. split; [exact Hu | now apply (get_deployments_run shc e u c w)].
Qed.

Lemma X22_get_deployments_outcome_witness :
  exists url,
    urlJoin_result [VStr default_endpoint; VStr (deployments_path ascending_request)]
    = Returned url /\
    get_deployments sample_client ascending_request answering_world
    = (after_request answering_world (get_request sample_client url),
       match network answering_world (get_request sample_client url) with
       | Returned dr => Subhosting.json dr
       | Threw err => Threw err
       end).
Proof.
  apply (X22_get_deployments_outcome sample_client default_endpoint
           ascending_request answering_world).
  reflexivity.
Defined.

(** X23: when the browser's request has no [projectId] parameter, or
    an empty one, the handler still calls the API: on a clean endpoint
    the request goes to [<endpoint>/projects//deployments?order=desc]. *)
Theorem X23_get_deployments_without_project (shc : Client) (e : string)
    (c : context) (w : world) :
  endpoint (clientOptions shc) = Some e -> clean_endpoint e = true ->
  lookup "projectId" (req_query c) = None
  \/ lookup "projectId" (req_query c) = Some "" ->
  sent (fst (get_deployments shc c w))
  = (sent w ++ [get_request shc (e ++ "/projects//deployments?order=desc")])%list.
Proof.
  intros He Hc Hq.
  assert (Hp : deployments_path c = "/projects//deployments?order=desc").
  { unfold deployments_path. now destruct Hq as [-> | ->]. }
  rewrite (get_deployments_run shc e
             (e ++ "/projects//deployments?order=desc") c w He);
    [reflexivity|].
  rewrite Hp.
  apply (urlJoin_api_path_query e "projects//deployments" "order=desc");
    try assumption; try reflexivity. discriminate.
Qed.

Lemma X23_get_deployments_without_project_witness :
  sent (fst (get_deployments sample_client {| req_query := [("order", "asc")] |}
               answering_world))
  = ([] ++ [get_request sample_client
              ("https://api.deno.com/v1" ++ "/projects//deployments?order=desc")])%list.
Proof.
  apply (X23_get_deployments_without_project sample_client default_endpoint
           {| req_query := [("order", "asc")] |} answering_world).
  - reflexivity.
  - reflexivity.
  - left. reflexivity.
Defined.

Section WithStringify.
Variable JSON_stringify : Posts.json -> string.

(** X24: the handler of [POST /deployment] sends nothing and throws
    when the browser's body does not parse or parses to [null];
    for any other body it sends one POST whose body is the serialized
    object with the entry point [main.ts], the one asset [main.ts] of
    kind [file] holding the given code in [utf-8], and no environment
    variables, and it answers with the parsed document of the API's
    answer, any failure being thrown on. *)
Theorem X24_post_deployment_outcome (shc : Client) (e : string)
    (c : post_context) (w : world) :
  endpoint (clientOptions shc) = Some e ->
  match req_json c with
  | Threw err => post_deployment JSON_stringify shc c w = (w, Threw err)
  | Returned BodyNull =>
      post_deployment JSON_stringify shc c w
      = (w, Threw (TypeError "Cannot read properties of null (reading 'projectId')"))
  | Returned (Body form) =>
      exists url,
        urlJoin_result
          [VStr e; VStr ("/projects/" ++ to_string (form_projectId form) ++ "/deployments")]
        = Returned url /\
        let r :=
          {| req_url := url;
             req_init :=
               {| method := Some "POST";
                  headers :=
                    Some (HeadersObject
                            [("Authorization", "Bearer " ++ accessToken shc);
                             ("Content-Type", "application/json")]);
                  body :=
                    Some (JSON_stringify
                            (JObject
                               [("entryPointUrl", JValue (VStr "main.ts"));
                                ("assets",
                                 JObject
                                   [("main.ts",
                                     JObject [("kind", JValue (VStr "file"));
                                              ("content", JValue (form_code form));
                                              ("encoding", JValue (VStr "utf-8"))])]);
                                ("envVars", JObject [])])) |} |} in
        post_deployment JSON_stringify shc c w
        = ({| env := env w; network := network w; sent := (sent w ++ [r])%list |},
           match network w r with
           | Returned dr => match Subhosting.json dr with
                            | Returned doc => Returned (Json doc)
                            | Threw err => Threw err
                            end
           | Threw err => Threw err
           end)
  end.
Proof.
  intros He. unfold post_deployment, bind, lift.
  destruct (req_json c) as [[|form]|err]; [reflexivity| |reflexivity].
  destruct (urlJoin_two_strings e
              ("/projects/" ++ to_string (form_projectId form) ++ "/deployments"))
    as [u Hu].
  exists u. split; [exact Hu|]. cbv zeta. unfold createDeployment.
  rewrite (fetch_run shc e _ u _ w He Hu).
  unfold after_request, post_init, bundle, Server.default_headers, caller_headers.
  cbn [method headers body Object_assign fold_left].
  match goal with
  | |- context [network w ?r] => destruct (network w r) as [dr|err]
  end; [|reflexivity].
  unfold response_json, lift, ret. now destruct (Subhosting.json dr).
Qed.

(** X25: a body without [projectId] does not stop the handler of
    [POST /deployment]: the missing value is written out, and on a
    clean endpoint the request goes to
    [<endpoint>/projects/undefined/deployments]. *)
Theorem X25_post_deployment_without_project (shc : Client) (e : string)
    (c : post_context) (code : value) (w : world) :
  endpoint (clientOptions shc) = Some e -> clean_endpoint e = true ->
  req_json c
  = Returned (Body {| form_projectId := VUndefined; form_code := code |}) ->
  sent (fst (post_deployment JSON_stringify shc c w))
  = (sent w
     ++ [post_request shc (e ++ "/projects/undefined/deployments")
           (JSON_stringify (bundle code))])%list.
Proof.
  intros He Hc Hj. unfold post_deployment, bind, lift. rewrite Hj.
  cbn [form_projectId form_code to_string].
  rewrite (createDeployment_clean JSON_stringify shc e "undefined"
             (bundle code) w He Hc eq_refl).
  destruct (network w _) as [dr|err]; [|reflexivity].
  unfold response_json, lift, ret. now destruct (Subhosting.json dr).
Qed.

(** X26: the handler of [POST /project] sends one POST with the form's
    name; whenever the API's answer parses, whatever its status, it
    prints the document and redirects to [/]; a rejected request is
    thrown on and nothing is printed. *)
Theorem X26_post_project_outcome (shc : Client) (e : string)
    (c : form_context) (w : world) (log : list string) :
  endpoint (clientOptions shc) = Some e ->
  exists url,
    urlJoin_result [VStr e; VStr (orgUrl shc ++ "/projects")] = Returned url /\
    let r := post_request shc url
               (JSON_stringify (JObject [("name", JValue (optional_value (form_name c)))])) in
    (forall st doc,
        network w r = Returned {| status := st; Subhosting.json := Returned doc |} ->
        post_project JSON_stringify shc c (w, log)
        = ((after_request w r, (log ++ [doc])%list), Returned (Redirect "/"))) /\
    (forall err,
        network w r = Threw err ->
        post_project JSON_stringify shc c (w, log)
        = ((after_request w r, log), Threw err)).
Proof.
  intros He.
  destruct (urlJoin_two_strings e (orgUrl shc ++ "/projects")) as [u Hu].
  exists u. split; [exact Hu|]. cbv zeta.
  unfold post_project, bind, on_world, createProject. cbn [fst snd].
  rewrite (fetch_run shc e _ u _ w He Hu).
  change {| req_url := u; req_init := _ |}
    with (post_request shc u
            (JSON_stringify (JObject [("name", JValue (optional_value (form_name c)))]))).
  split.
  - intros st doc ->. reflexivity.
  - intros err ->. reflexivity.
Qed.

End WithStringify.

Lemma X24_post_deployment_outcome_witness :
  post_deployment (fun _ => "{}") sample_client {| req_json := Returned BodyNull |}
    answering_world
  = (answering_world,
     Threw (TypeError "Cannot read properties of null (reading 'projectId')")).
Proof.
  apply (X24_post_deployment_outcome (fun _ => "{}") sample_client default_endpoint
           {| req_json := Returned BodyNull |} answering_world).
  reflexivity.
Defined.

Lemma X25_post_deployment_without_project_witness :
  sent (fst (post_deployment (fun _ => "{}") sample_client
               {| req_json := Returned (Body {| form_projectId := VUndefined;
                                                form_code := VStr "code" |}) |}
               answering_world))
  = ([] ++ [post_request sample_client
              ("https://api.deno.com/v1" ++ "/projects/undefined/deployments")
              "{}"])%list.
Proof.
  apply (X25_post_deployment_without_project (fun _ => "{}") sample_client
           default_endpoint
           {| req_json := Returned (Body {| form_projectId := VUndefined;
                                            form_code := VStr "code" |}) |}
           (VStr "code") answering_world); reflexivity.
Defined.

Lemma X26_post_project_outcome_witness :
  exists url,
    urlJoin_result [VStr default_endpoint; VStr (orgUrl sample_client ++ "/projects")]
    = Returned url /\
    let r := post_request sample_client url "{}" in
    (forall st doc,
        network answering_world r
        = Returned {| status := st; Subhosting.json := Returned doc |} ->
        post_project (fun _ => "{}") sample_client {| form_name := None |}
          (answering_world, [])
        = ((after_request answering_world r, ([] ++ [doc])%list),
           Returned (Redirect "/"))) /\
    (forall err,
        network answering_world r = Threw err ->
        post_project (fun _ => "{}") sample_client {| form_name := None |}
          (answering_world, [])
        = ((after_request answering_world r, []), Threw err)).
Proof.
  apply (X26_post_project_outcome (fun _ => "{}") sample_client default_endpoint
           {| form_name := None |} answering_world []).
  reflexivity.
Defined.

End RoutesMore.

(* ================================================================== *)
(** * The query of the deployments route                               *)
(* ================================================================== *)

Section UnslashedFacts.
Import Js UrlJoin Shapes.

Lemma unslashed_app (a b : string) :
  unslashed (a ++ b) = unslashed a ++ unslashed b.
Proof.
  induction a as [|c a IH]; [reflexivity|]. cbn [append unslashed].
  destruct (is_slash c); [exact IH | now rewrite IH].
Qed.

Lemma unslashed_strip_leading (s : string) :
  unslashed (strip_leading_slashes s) = unslashed s.
Proof.
  induction s as [|c s IH]; [reflexivity|].
  cbn [strip_leading_slashes]. destruct (is_slash c) eqn:Hc; [|reflexivity].
  cbn [unslashed]. now rewrite Hc.
Qed.

Lemma unslashed_all_slashes (s : string) :
  all_slashes s = true -> unslashed s = "".
Proof.
  induction s as [|c s IH]; [reflexivity|]. cbn [all_slashes unslashed].
  intros H. apply andb_true_iff in H. destruct H as [Hc Hs].
  rewrite Hc. now apply IH.
Qed.

Lemma unslashed_replace_trailing (r s : string) :
  unslashed r = "" ->
  unslashed (replace_trailing_slashes r s) = unslashed s.
Proof.
  intros Hr. induction s as [|c s IH]; [reflexivity|].
  cbn [replace_trailing_slashes].
  destruct (is_slash c) eqn:Hc; cbn [andb].
  - destruct (all_slashes s) eqn:Ha.
    + cbn [unslashed]. now rewrite Hc, Hr, (unslashed_all_slashes s Ha).
    + cbn [unslashed]. now rewrite Hc.
  - cbn [unslashed]. now rewrite Hc, IH.
Qed.

Lemma unslashed_replace_scheme (sep s : string) :
  unslashed sep = ":" -> unslashed (replace_scheme sep s) = unslashed s.
Proof.
  intros Hsep. unfold replace_scheme, match_scheme.
  destruct (scheme_span s) as [p r] eqn:E. apply scheme_span_app in E.
  destruct p as [|c p]; [reflexivity|].
  destruct r as [|d r]; [reflexivity|].
  destruct (is_colon d) eqn:Hd; [|reflexivity].
  apply is_colon_eq in Hd. subst d. rewrite E.
  rewrite !unslashed_app, Hsep, unslashed_strip_leading.
  change (String ":" r) with (":" ++ r). now rewrite unslashed_app.
Qed.

Lemma unslashed_normalize_scheme (s : string) :
  unslashed (normalize_scheme s) = unslashed s.
Proof.
  unfold normalize_scheme.
  destruct (starts_with "file:///" s); now apply unslashed_replace_scheme.
Qed.

Lemma drops_unslashed (s u : string) :
  drops_slashes s u -> unslashed u = unslashed s.
Proof.
  induction 1 as [|c s u _ IH|s u _ IH]; [reflexivity| |exact IH].
  cbn [unslashed]. destruct (is_slash c); [exact IH | now rewrite IH].
Qed.

Lemma unslashed_strip (s : string) :
  unslashed (strip_slash_before_delim s) = unslashed s.
Proof. apply drops_unslashed, strip_drops. Qed.

Lemma count_unslashed (c : ascii) (s : string) :
  is_slash c = false -> count_char c (unslashed s) = count_char c s.
Proof.
  intros Hc. induction s as [|d s IH]; [reflexivity|].
  cbn [unslashed count_char].
  destruct (is_slash d) eqn:Hd.
  - apply is_slash_eq in Hd. subst d.
    destruct (Ascii.eqb_spec "/"%char c) as [<-|_]; [discriminate | exact IH].
  - cbn [count_char]. now rewrite IH.
Qed.

Lemma before_char_none (c : ascii) (s : string) :
  count_char c s = 0 -> before_char c s = s.
Proof.
  induction s as [|d s IH]; [reflexivity|]. cbn [count_char before_char].
  destruct (Ascii.eqb d c); [discriminate|]. intros H. now rewrite IH.
Qed.

Lemma after_char_first (c : ascii) (x q : string) :
  count_char c x = 0 -> after_char c (x ++ String c q) = Some q.
Proof.
  induction x as [|d x IH]; cbn [append count_char after_char].
  - now rewrite Ascii.eqb_refl.
  - destruct (Ascii.eqb d c); [discriminate | exact IH].
Qed.

Lemma append_inv_tail (a b t : string) : a ++ t = b ++ t -> a = b.
Proof.
  intros H.
  assert (L : forall x y, list_ascii_of_string (x ++ y)
                          = (list_ascii_of_string x ++ list_ascii_of_string y)%list).
  { intros x y. induction x as [|c x IH]; [reflexivity|].
    cbn [append list_ascii_of_string app]. now rewrite IH. }
  apply (f_equal list_ascii_of_string) in H. rewrite !L in H.
  apply app_inv_tail in H.
  rewrite <- (string_of_list_ascii_of_string a),
          <- (string_of_list_ascii_of_string b).
  now rewrite H.
Qed.

End UnslashedFacts.

Section SlashlessSuffix.
Import Js UrlJoin Shapes.

Lemma slashless_cons (c : ascii) (u : string) :
  slashless (String c u) = true ->
  is_slash c = false /\ is_colon c = false /\ slashless u = true.
Proof.
  cbn [slashless]. intros H.
  apply andb_true_iff in H. destruct H as [H Hu].
  apply andb_true_iff in H. destruct H as [Hs Hc].
  repeat split; try assumption; now apply negb_true_iff.
Qed.

Lemma slashless_unslashed (u : string) : slashless u = true -> unslashed u = u.
Proof.
  induction u as [|c u IH]; [reflexivity|]. intros H.
  destruct (slashless_cons c u H) as [Hs [_ Hu]].
  cbn [unslashed]. now rewrite Hs, IH.
Qed.

Lemma strip_leading_slashless (u : string) :
  slashless u = true -> strip_leading_slashes u = u.
Proof.
  destruct u as [|c u]; [reflexivity|]. intros H.
  destruct (slashless_cons c u H) as [Hs _].
  cbn [strip_leading_slashes]. now rewrite Hs.
Qed.

Lemma all_slashes_slashless (u : string) :
  slashless u = true -> u <> "" -> all_slashes u = false.
Proof.
  destruct u as [|c u]; [congruence|]. intros H _.
  destruct (slashless_cons c u H) as [Hs _].
  cbn [all_slashes]. now rewrite Hs.
Qed.

Lemma replace_trailing_slashless (r u : string) :
  slashless u = true -> replace_trailing_slashes r u = u.
Proof.
  induction u as [|c u IH]; [reflexivity|]. intros H.
  destruct (slashless_cons c u H) as [Hs [_ Hu]].
  cbn [replace_trailing_slashes]. rewrite Hs. cbn [andb]. now rewrite IH.
Qed.

Lemma scheme_span_slashless (u : string) :
  slashless u = true -> scheme_span u = (u, "").
Proof.
  induction u as [|c u IH]; [reflexivity|]. intros H.
  destruct (slashless_cons c u H) as [Hs [Hc Hu]].
  cbn [scheme_span]. rewrite Hs, Hc, (IH Hu). reflexivity.
Qed.

Lemma drops_slashless (u v : string) :
  drops_slashes u v -> slashless u = true -> v = u.
Proof.
  induction 1 as [|c s u' _ IH|s u' _ IH]; intros Hp.
  - reflexivity.
  - destruct (slashless_cons c s Hp) as [_ [_ Hs]]. now rewrite IH.
  - destruct (slashless_cons "/" s Hp) as [Hs _]. discriminate.
Qed.

(** A non-empty text without slash or colon, such as a query with its
    question mark. *)
Variable t : string.
Hypothesis t_slashless : slashless t = true.
Hypothesis t_not_empty : t <> "".

Lemma leading_kept (a : string) :
  ends_with t (strip_leading_slashes (a ++ t)).
Proof.
  induction a as [|c a IH]; cbn [append strip_leading_slashes].
  - rewrite strip_leading_slashless by assumption. apply ends_with_refl.
  - destruct (is_slash c); [exact IH|]. now exists (String c a).
Qed.

Lemma not_all_slashes (a : string) : all_slashes (a ++ t) = false.
Proof.
  induction a as [|c a IH]; cbn [append all_slashes].
  - now apply all_slashes_slashless.
  - rewrite IH. apply andb_false_r.
Qed.

Lemma trailing_kept (r a : string) :
  replace_trailing_slashes r (a ++ t) = a ++ t.
Proof.
  induction a as [|c a IH]; cbn [append].
  - now apply replace_trailing_slashless.
  - cbn [replace_trailing_slashes].
    rewrite not_all_slashes, andb_false_r, IH. reflexivity.
Qed.

Lemma scheme_span_kept (a : string) :
  scheme_span (a ++ t)
  = match scheme_span a with
    | (p, "") => (p ++ t, "")
    | (p, String d r) => (p, String d r ++ t)
    end.
Proof.
  induction a as [|c a IH]; cbn [append scheme_span].
  - now apply scheme_span_slashless.
  - destruct (is_slash c || is_colon c); [reflexivity|].
    rewrite IH. destruct (scheme_span a) as [p [|d r]]; reflexivity.
Qed.

Lemma replace_scheme_kept (sep a : string) :
  ends_with t (replace_scheme sep (a ++ t)).
Proof.
  unfold replace_scheme, match_scheme. rewrite scheme_span_kept.
  destruct (scheme_span a) as [p [|d r]].
  - destruct (p ++ t); now exists a.
  - cbn [append]. destruct p as [|c p]; [now exists a|].
    destruct (is_colon d); [|now exists a].
    apply ends_with_app, ends_with_app, leading_kept.
Qed.

Lemma normalize_scheme_kept (a : string) :
  ends_with t (normalize_scheme (a ++ t)).
Proof.
  unfold normalize_scheme.
  destruct (starts_with "file:///" (a ++ t)); apply replace_scheme_kept.
Qed.

Lemma drops_kept (a v : string) :
  drops_slashes (a ++ t) v -> ends_with t v.
Proof.
  revert v. induction a as [|c a IH]; intros v; cbn [append].
  - intros H. rewrite (drops_slashless t v H t_slashless). apply ends_with_refl.
  - intros H. inversion H; subst.
    + apply ends_with_cons, IH. assumption.
    + apply IH. assumption.
Qed.

Lemma strip_kept (a : string) :
  ends_with t (strip_slash_before_delim (a ++ t)).
Proof. apply (drops_kept a), strip_drops. Qed.

Lemma kept_not_empty (a : string) : String.eqb (a ++ t) "" = false.
Proof.
  apply String.eqb_neq. intros H. apply append_eq_nil in H. tauto.
Qed.

(** The text the joiner hands to [merge_query] for an endpoint and a
    path: it ends as the path does, and it differs from the endpoint
    followed by the path in slashes only. *)
Lemma urlJoin_two_before_merge (e path : string) :
  exists y,
    urlJoin_result [VStr e; VStr (path ++ t)] = Returned (merge_query y)
    /\ ends_with t y
    /\ unslashed y = unslashed (e ++ path ++ t).
Proof.
  unfold urlJoin_result, urlJoin. cbn [typeof snd normalize].
  replace (1 <? length [VStr e; VStr (path ++ t)])%nat with true by reflexivity.
  rewrite andb_true_r.
  destruct (is_bare_scheme e).
  - cbn [to_string snd length].
    assert (Hu := unslashed_normalize_scheme (e ++ path ++ t)).
    rewrite <- append_assoc in Hu |- *.
    destruct (normalize_scheme_kept (e ++ path)) as [x Hx].
    rewrite Hx in Hu |- *.
    cbn [components]. rewrite kept_not_empty.
    cbn [Nat.ltb Nat.leb Nat.sub app join].
    rewrite trailing_kept.
    eexists. split; [reflexivity|]. split; [apply strip_kept|].
    now rewrite unslashed_strip.
  - cbn [snd length components].
    assert (Hu := unslashed_strip_leading (path ++ t)).
    destruct (leading_kept path) as [x Hx]. rewrite Hx in Hu.
    assert (He := unslashed_normalize_scheme e).
    destruct (String.eqb_spec (normalize_scheme e) "") as [E|E].
    + rewrite E in He. cbn [components]. rewrite kept_not_empty.
      cbn [Nat.ltb Nat.leb Nat.sub app join].
      rewrite Hx, trailing_kept.
      eexists. split; [reflexivity|]. split; [apply strip_kept|].
      rewrite unslashed_strip, Hu, (unslashed_app e), <- He. reflexivity.
    + cbn [components]. rewrite kept_not_empty.
      cbn [Nat.ltb Nat.leb Nat.sub app join].
      rewrite Hx, trailing_kept.
      eexists. split; [reflexivity|]. split.
      * rewrite <- !append_assoc. apply strip_kept.
      * rewrite unslashed_strip, !unslashed_app,
          (unslashed_replace_trailing "" _ eq_refl), He.
        rewrite <- (unslashed_app x t), Hu, unslashed_app. reflexivity.
Qed.

End SlashlessSuffix.

Section DeploymentsQuery.
Import Js UrlJoin Shapes Subhosting Server.

Lemma unmarked_path (e pid : string) (c : ascii) :
  is_slash c = false ->
  count_char c e = 0 -> count_char c pid = 0 ->
  count_char c "/projects/" = 0 -> count_char c "/deployments" = 0 ->
  forall y t, unslashed y = unslashed (e ++ ("/projects/" ++ pid ++ "/deployments") ++ t) ->
              count_char c y = count_char c t.
Proof.
  intros Hc He Hp H1 H2 y t Hy.
  rewrite <- (count_unslashed c y Hc), Hy, (count_unslashed c _ Hc).
  rewrite !count_char_app, He, Hp, H1, H2. reflexivity.
Qed.

(** With neither [?] nor [#] in the endpoint and in the project id,
    the joined URL of the deployments route has the query
    [order=desc]. *)
Lemma deployments_query (e pid : string) :
  unmarked e -> unmarked pid ->
  exists url,
    urlJoin_result [VStr e; VStr ("/projects/" ++ pid ++ "/deployments?order=desc")]
    = Returned url
    /\ url_query url = Some "order=desc"
    /\ ends_with "order=desc" url.
Proof.
  intros [Heq Heh] [Hpq Hph].
  destruct (urlJoin_two_before_merge "?order=desc" eq_refl ltac:(discriminate) e
              ("/projects/" ++ pid ++ "/deployments")) as [y [Hy [[x Hx] Hu]]].
  assert (Hpath : ("/projects/" ++ pid ++ "/deployments") ++ "?order=desc"
                  = "/projects/" ++ pid ++ "/deployments?order=desc").
  { rewrite !append_assoc. reflexivity. }
  rewrite Hpath in Hy.
  assert (Hq : count_char "?" y = 1).
  { apply (unmarked_path e pid "?" eq_refl Heq Hpq eq_refl eq_refl y "?order=desc").
    exact Hu. }
  assert (Hh : count_char "#" y = 0).
  { apply (unmarked_path e pid "#" eq_refl Heh Hph eq_refl eq_refl y "?order=desc").
    exact Hu. }
  rewrite merge_query_fixed in Hy by lia.
  exists y. split; [exact Hy|].
  subst y. rewrite count_char_app in Hq, Hh.
  change (count_char "?" "?order=desc") with 1 in Hq.
  change (count_char "#" "?order=desc") with 0 in Hh.
  split.
  - unfold url_query. rewrite before_char_none.
    + change (x ++ "?order=desc") with (x ++ String "?" "order=desc").
      apply after_char_first. lia.
    + rewrite count_char_app. change (count_char "#" "?order=desc") with 0. lia.
  - exists (x ++ "?"). now rewrite append_assoc.
Qed.

(** C9, as stated, fails: a project id sent by the browser can carry a
    query of its own and cut off the rest with a [#], so that the
    request asks for ascending order; a [#] alone leaves the request
    without any query; a [?] alone puts parameters of the browser's
    before [order=desc]. *)
Lemma C9_deployments_route_order_not_fixed :
  map (fun r => (req_url r, url_query (req_url r)))
    (sent (fst (get_deployments sample_client
                  {| req_query := [("projectId", "p/deployments?order=asc#")] |}
                  quiet_world)))
  = [("https://api.deno.com/v1/projects/p/deployments?order=asc#/deployments&order=desc",
      Some "order=asc")] /\
  map (fun r => (req_url r, url_query (req_url r)))
    (sent (fst (get_deployments sample_client
                  {| req_query := [("projectId", "p#")] |} quiet_world)))
  = [("https://api.deno.com/v1/projects/p#/deployments?order=desc", None)] /\
  map (fun r => (req_url r, url_query (req_url r)))
    (sent (fst (get_deployments sample_client
                  {| req_query := [("projectId", "p?order=asc&x=")] |} quiet_world)))
  = [("https://api.deno.com/v1/projects/p?order=asc&x=/deployments&order=desc",
      Some "order=asc&x=/deployments&order=desc")].
Proof. repeat split; reflexivity. Qed.

(** C9 (amended): for every browser request the handler of
    [GET /deployments] sends what [listDeployments] sends for the
    request's project id and the fixed query [{order: "desc"}]; and
    when neither the endpoint nor the project id holds a [?] or a [#],
    the one request is a GET whose URL has exactly the query
    [order=desc], whatever else the browser sent. *)
Theorem C9_deployments_route_orders_desc
    (shc : Client) (c : context) (w : world) :
  sent (fst (get_deployments shc c w))
  = sent (fst (listDeployments shc
                 (or_empty (lookup "projectId" (req_query c)))
                 (Some [("order", "desc")]) w)) /\
  (forall e,
     endpoint (clientOptions shc) = Some e ->
     unmarked e ->
     unmarked (or_empty (lookup "projectId" (req_query c))) ->
     exists url,
       urlJoin_result [VStr e; VStr (deployments_path c)] = Returned url /\
       url_query url = Some "order=desc" /\
       ends_with "order=desc" url /\
       sent (fst (get_deployments shc c w))
       = (sent w ++ [ {| req_url := url;
                         req_init := {| method := Some "GET";
                                        headers := Some (HeadersObject (default_headers shc));
                                        body := None |} |} ])%list).
Proof.
  split.
  - unfold get_deployments, bind.
    destruct (listDeployments shc _ _ w) as [w' [dr|err]]; [|reflexivity].
    unfold response_json, lift, ret. now destruct (json dr).
  - intros e He Hue Hup.
    destruct (deployments_query e _ Hue Hup) as [url [Hu [Hq Hend]]].
    exists url. repeat split; try assumption.
    unfold get_deployments, listDeployments, bind.
    rewrite order_desc_serialized.
    change ("/deployments?" ++ "order=desc") with "/deployments?order=desc".
    rewrite (fetch_run shc e _ url (Some get_init) w He Hu).
    unfold after_request, caller_headers.
    cbn [get_init headers method body Object_assign fold_left].
    match goal with
    | |- context [network w ?r] => destruct (network w r) as [dr|err]
    end; [|reflexivity].
    unfold response_json, lift, ret. now destruct (json dr).
Qed.

Lemma C9_deployments_route_orders_desc_witness :
  exists url,
    urlJoin_result [VStr default_endpoint; VStr (deployments_path ascending_request)]
    = Returned url /\
    url_query url = Some "order=desc" /\
    ends_with "order=desc" url /\
    sent (fst (get_deployments sample_client ascending_request quiet_world))
    = ([] ++ [ {| req_url := url;
                  req_init := {| method := Some "GET";
                                 headers := Some (HeadersObject (default_headers sample_client));
                                 body := None |} |} ])%list.
Proof.
  apply (proj2 (C9_deployments_route_orders_desc sample_client ascending_request
                  quiet_world) default_endpoint).
  - reflexivity.
  - split; reflexivity.
  - split; reflexivity.
Defined.

End DeploymentsQuery.
